(** * MEV-Shield server: a shallow embedding of the server core

    The server (Express + Socket.io + SQLite) is embedded function by
    function.  Every source function takes its sources of
    nondeterminism (the clock, [Math.random], the SQLite engine, the
    Gemini SDK) as explicit arguments and threads the state it mutates.

    Modelling conventions:
    - JavaScript values are the inductive [JsVal]; strings are byte
      strings; numbers are exact rationals ([Q]) and the integer
      counters are exact integers ([Z]), i.e. rounding of IEEE doubles
      is outside the model;
    - an asynchronous function is embedded by the completion of the
      promise it returns: [Returned v] (fulfilled) or [Threw e]
      (rejected);
    - a callback-style database call is embedded by the store it leaves
      and the error (if any) it hands to its callback; every statement
      is taken to complete, with an error or without;
    - console output is not part of the model. *)

From Stdlib Require Import Ascii String QArith Qround Qabs Lqa.
From stdpp Require Import gmap strings list sorting pretty.

Local Open Scope Z_scope.

(** ** JavaScript values and the runtime operations the server uses *)

Module JS.

#[local] Set Warnings "-register-all".

Inductive JsVal : Type :=
| JUndefined
| JNull
| JBool (b : bool)
| JNum (q : Q)
| JNaN
| JStr (s : string)
| JArr (items : list JsVal)
| JObj (fields : list (string * JsVal)).

(** The completion of a call: a value, or a thrown value. *)
Inductive Completion (A : Type) : Type :=
| Returned (a : A)
| Threw (e : JsVal).
Arguments Returned {A} a.
Arguments Threw {A} e.

Definition bind {A B} (c : Completion A) (k : A -> Completion B) : Completion B :=
  match c with
  | Returned a => k a
  | Threw e => Threw e
  end.

Notation "'let!' x ':=' c 'in' k" := (bind c (fun x => k))
  (at level 10, x name, c at level 100, k at level 200).

Definition is_returned {A} (c : Completion A) : bool :=
  match c with Returned _ => true | Threw _ => false end.

(** The one-character string holding a double quote. *)
Definition dq : string := String (ascii_of_nat 34) EmptyString.

(** [new Error(msg)] and friends, as far as the server looks at them. *)
Definition mk_error (name msg : string) : JsVal :=
  JObj [("name", JStr name); ("message", JStr msg)].

(** ToBoolean: the falsy values are [undefined], [null], [false], [0],
    [NaN] and the empty string. *)
Definition to_boolean (v : JsVal) : bool :=
  match v with
  | JUndefined | JNull | JNaN => false
  | JBool b => b
  | JNum q => negb (Qnum q =? 0)
  | JStr s => negb (String.eqb s EmptyString)
  | JArr _ | JObj _ => true
  end.

Fixpoint assoc_get (k : string) (fs : list (string * JsVal)) : option JsVal :=
  match fs with
  | [] => None
  | (k', v) :: fs' => if String.eqb k k' then Some v else assoc_get k fs'
  end.

(** Object-literal/[JSON.parse] property definition: an existing key
    keeps its position and takes the new value. *)
Fixpoint assoc_set (k : string) (v : JsVal) (fs : list (string * JsVal))
  : list (string * JsVal) :=
  match fs with
  | [] => [(k, v)]
  | (k', v') :: fs' =>
      if String.eqb k k' then (k, v) :: fs' else (k', v') :: assoc_set k v fs'
  end.

(** [o.k] for the property names the server reads (none of them lives
    on a prototype): a [TypeError] on [undefined] and [null],
    [undefined] when the property is missing. *)
Definition get_prop (o : JsVal) (k : string) : Completion JsVal :=
  match o with
  | JUndefined | JNull =>
      Threw (mk_error "TypeError" ("Cannot read properties of undefined (reading '" +:+ k +:+ "')"))
  | JObj fs => Returned (default JUndefined (assoc_get k fs))
  | _ => Returned JUndefined
  end.

(** [const { k } = o] on a request body, which [express.json()] leaves an
    object. *)
Definition destructure (body : list (string * JsVal)) (k : string) : JsVal :=
  default JUndefined (assoc_get k body).

(** [s.startsWith(p)] *)
Definition startsWith (s p : string) : bool := String.prefix p s.

(** [s.slice(a, b)] for [0 <= a <= b]. *)
Definition slice (a b : nat) (s : string) : string :=
  String.substring a (b - a) s.

(** [s.slice(-k)]: the last [k] characters. *)
Definition slice_last (k : nat) (s : string) : string :=
  String.substring (String.length s - k) k s.

(** [s.split(sep)[0]] for a one-character separator: the part of [s]
    before the first [sep]. *)
Fixpoint split_head (sep : ascii) (s : string) : string :=
  match s with
  | EmptyString => EmptyString
  | String c s' => if Ascii.eqb c sep then EmptyString else String c (split_head sep s')
  end.

(** *** [JSON.parse] *)

Definition is_ws (c : ascii) : bool :=
  let n := nat_of_ascii c in
  (n =? 32)%nat || (n =? 9)%nat || (n =? 10)%nat || (n =? 13)%nat.

Fixpoint skip_ws (cs : list ascii) : list ascii :=
  match cs with
  | c :: cs' => if is_ws c then skip_ws cs' else cs
  | [] => []
  end.

Definition digit_val (c : ascii) : option Z :=
  let n := nat_of_ascii c in
  if ((48 <=? n) && (n <=? 57))%nat then Some (Z.of_nat (n - 48)) else None.

Definition hex_val (c : ascii) : option Z :=
  let n := nat_of_ascii c in
  if ((48 <=? n) && (n <=? 57))%nat then Some (Z.of_nat (n - 48))
  else if ((97 <=? n) && (n <=? 102))%nat then Some (Z.of_nat (n - 87))
  else if ((65 <=? n) && (n <=? 70))%nat then Some (Z.of_nat (n - 55))
  else None.

(** Reads a maximal run of decimal digits: its value, its length, the rest. *)
Fixpoint read_digits (cs : list ascii) (acc : Z) (len : nat) : Z * nat * list ascii :=
  match cs with
  | c :: cs' =>
      match digit_val c with
      | Some d => read_digits cs' (10 * acc + d) (S len)
      | None => (acc, len, cs)
      end
  | [] => (acc, len, [])
  end.

(** [m * 10^e] as an exact rational. *)
Definition scale10 (m e : Z) : Q :=
  if 0 <=? e then inject_Z (m * 10 ^ e)
  else Qmake m (Z.to_pos (10 ^ (- e))).

Definition read_int_part (cs : list ascii) : option (Z * list ascii) :=
  match cs with
  | c :: cs' =>
      if Ascii.eqb c "0" then Some (0, cs')
      else match read_digits cs 0 0%nat with
           | (_, O, _) => None
           | (m, _, r) => Some (m, r)
           end
  | [] => None
  end.

Definition read_frac_part (m : Z) (cs : list ascii) : option (Z * Z * list ascii) :=
  match cs with
  | c :: cs' =>
      if Ascii.eqb c "." then
        match read_digits cs' m 0%nat with
        | (_, O, _) => None
        | (m', k, r) => Some (m', Z.of_nat k, r)
        end
      else Some (m, 0, cs)
  | [] => Some (m, 0, [])
  end.

Definition read_exp_part (cs : list ascii) : option (Z * list ascii) :=
  match cs with
  | c :: cs' =>
      if Ascii.eqb c "e" || Ascii.eqb c "E" then
        let '(sgn, cs'') :=
          match cs' with
          | s :: r => if Ascii.eqb s "-" then (-1, r)
                      else if Ascii.eqb s "+" then (1, r) else (1, cs')
          | [] => (1, cs')
          end in
        match read_digits cs'' 0 0%nat with
        | (_, O, _) => None
        | (e, _, r) => Some (sgn * e, r)
        end
      else Some (0, cs)
  | [] => Some (0, [])
  end.

Definition read_number (cs : list ascii) : option (JsVal * list ascii) :=
  let '(sgn, cs1) :=
    match cs with
    | c :: r => if Ascii.eqb c "-" then (-1, r) else (1, cs)
    | [] => (1, cs)
    end in
  '(m, cs2) ← read_int_part cs1;
  '(m', k, cs3) ← read_frac_part m cs2;
  '(e, cs4) ← read_exp_part cs3;
  Some (JNum (scale10 (sgn * m') (e - k)), cs4).

(** A code point below [2^16] as UTF-8 bytes. *)
Definition utf8 (cp : Z) : list ascii :=
  let b (z : Z) := ascii_of_nat (Z.to_nat z) in
  if cp <? 128 then [b cp]
  else if cp <? 2048 then [b (192 + cp / 64); b (128 + cp mod 64)]
  else [b (224 + cp / 4096); b (128 + (cp / 64) mod 64); b (128 + cp mod 64)].

Definition read_hex4 (cs : list ascii) : option (Z * list ascii) :=
  match cs with
  | a :: b :: c :: d :: r =>
      x1 ← hex_val a; x2 ← hex_val b; x3 ← hex_val c; x4 ← hex_val d;
      Some (((x1 * 16 + x2) * 16 + x3) * 16 + x4, r)
  | _ => None
  end.

(** The characters of a string literal after its opening quote. *)
Fixpoint read_string (fuel : nat) (cs : list ascii) (acc : list ascii)
  : option (string * list ascii) :=
  match fuel with
  | O => None
  | S fuel' =>
      match cs with
      | [] => None
      | c :: r =>
          let n := nat_of_ascii c in
          if (n =? 34)%nat then Some (string_of_list_ascii (rev acc), r)
          else if (n =? 92)%nat then
            match r with
            | e :: r' =>
                let m := nat_of_ascii e in
                if (m =? 34)%nat || (m =? 92)%nat || (m =? 47)%nat
                then read_string fuel' r' (e :: acc)
                else if (m =? 98)%nat then read_string fuel' r' (ascii_of_nat 8 :: acc)
                else if (m =? 102)%nat then read_string fuel' r' (ascii_of_nat 12 :: acc)
                else if (m =? 110)%nat then read_string fuel' r' (ascii_of_nat 10 :: acc)
                else if (m =? 114)%nat then read_string fuel' r' (ascii_of_nat 13 :: acc)
                else if (m =? 116)%nat then read_string fuel' r' (ascii_of_nat 9 :: acc)
                else if (m =? 117)%nat then
                  match read_hex4 r' with
                  | Some (cp, r'') => read_string fuel' r'' (rev (utf8 cp) ++ acc)
                  | None => None
                  end
                else None
            | [] => None
            end
          else if (n <? 32)%nat then None
          else read_string fuel' r (c :: acc)
      end
  end.

Definition is_prefix_chars (p : string) (cs : list ascii) : option (list ascii) :=
  let pl := list_ascii_of_string p in
  if decide (take (length pl) cs = pl) then Some (drop (length pl) cs) else None.

Fixpoint read_value (fuel : nat) (cs : list ascii) : option (JsVal * list ascii) :=
  match fuel with
  | O => None
  | S fuel' =>
      match skip_ws cs with
      | [] => None
      | c :: r =>
          let n := nat_of_ascii c in
          if (n =? 34)%nat then
            '(s, r') ← read_string (S (length r)) r []; Some (JStr s, r')
          else if (n =? 91)%nat then
            match skip_ws r with
            | c' :: r' =>
                if (nat_of_ascii c' =? 93)%nat then Some (JArr [], r')
                else read_elements fuel' r []
            | [] => None
            end
          else if (n =? 123)%nat then
            match skip_ws r with
            | c' :: r' =>
                if (nat_of_ascii c' =? 125)%nat then Some (JObj [], r')
                else read_members fuel' r []
            | [] => None
            end
          else if (n =? 110)%nat then r' ← is_prefix_chars "null" (c :: r); Some (JNull, r')
          else if (n =? 116)%nat then r' ← is_prefix_chars "true" (c :: r); Some (JBool true, r')
          else if (n =? 102)%nat then r' ← is_prefix_chars "false" (c :: r); Some (JBool false, r')
          else read_number (c :: r)
      end
  end
with read_elements (fuel : nat) (cs : list ascii) (acc : list JsVal)
  : option (JsVal * list ascii) :=
  match fuel with
  | O => None
  | S fuel' =>
      '(v, r) ← read_value fuel' cs;
      match skip_ws r with
      | c :: r' =>
          if (nat_of_ascii c =? 44)%nat then read_elements fuel' r' (acc ++ [v])
          else if (nat_of_ascii c =? 93)%nat then Some (JArr (acc ++ [v]), r')
          else None
      | [] => None
      end
  end
with read_members (fuel : nat) (cs : list ascii) (acc : list (string * JsVal))
  : option (JsVal * list ascii) :=
  match fuel with
  | O => None
  | S fuel' =>
      match skip_ws cs with
      | q :: r0 =>
          if (nat_of_ascii q =? 34)%nat then
            '(k, r1) ← read_string (S (length r0)) r0 [];
            match skip_ws r1 with
            | c :: r2 =>
                if (nat_of_ascii c =? 58)%nat then
                  '(v, r3) ← read_value fuel' r2;
                  match skip_ws r3 with
                  | c' :: r4 =>
                      if (nat_of_ascii c' =? 44)%nat
                      then read_members fuel' r4 (assoc_set k v acc)
                      else if (nat_of_ascii c' =? 125)%nat
                      then Some (JObj (assoc_set k v acc), r4)
                      else None
                  | [] => None
                  end
                else None
            | [] => None
            end
          else None
      | [] => None
      end
  end.

(** [JSON.parse(text)]: [None] stands for the [SyntaxError] it throws. *)
Definition JSON_parse (text : string) : option JsVal :=
  let cs := list_ascii_of_string text in
  match read_value (2 * length cs + 2) cs with
  | Some (v, r) => match skip_ws r with [] => Some v | _ => None end
  | None => None
  end.

End JS.

Import JS.

(** ** The persistence store: the SQLite database behind [db] *)

Module Store.

(** One row of [protected_trades]. *)
Record Row := mkRow {
  id : Z;
  raw_tx : JsVal;
  protection_relay_tx_hash : string;
  status : string;
  submitted_at : string
}.

(** A table: its column declarations, its rows in insertion order and
    its [sqlite_sequence] entry (the largest id ever handed out). *)
Record Table := mkTable {
  columns : list string;
  rows : list Row;
  seq : Z
}.

(** The database handle [db]. *)
Record Db := mkDb {
  is_open : bool;
  tables : gmap string Table
}.

Definition TABLE : string := "protected_trades".

Definition COLUMNS : list string :=
  [ "id INTEGER PRIMARY KEY AUTOINCREMENT";
    "raw_tx TEXT NOT NULL";
    "protection_relay_tx_hash TEXT";
    "status TEXT NOT NULL";
    "submitted_at DATETIME DEFAULT CURRENT_TIMESTAMP" ].

(** [new sqlite3.Database(DB_PATH, cb)] over the tables found in the
    file; [fault] is the error the engine reports, if any.  A handle
    that failed to open is represented like a closed one; the library
    in fact leaves the statements of such a handle queued and never
    calls back, so what the server answers is stated below for open
    handles only. *)
Definition open_db (fault : option string) (file : gmap string Table) : Db * option string :=
  match fault with
  | Some e => (mkDb false file, Some e)
  | None => (mkDb true file, None)
  end.

(** [db.close()] *)
Definition close (d : Db) : Db := mkDb false (tables d).

(** The largest signed 64-bit integer, SQLite's largest rowid. *)
Definition MAX_ROWID : Z := 2 ^ 63 - 1.

Definition max_id (rs : list Row) : Z := foldr (fun r m => Z.max (id r) m) 0 rs.

(** AUTOINCREMENT: one more than the largest id the table holds or has
    ever held. *)
Definition next_id (t : Table) : Z := Z.max (seq t) (max_id (rows t)) + 1.

Definition is_sql_null (v : JsVal) : bool :=
  match v with JUndefined | JNull => true | _ => false end.

(** [db.run("CREATE TABLE [IF NOT EXISTS] name (columns)", cb)]: the
    database left and the error handed to [cb]. *)
Definition run_create_table (fault : option string) (if_not_exists : bool)
    (name : string) (cols : list string) (d : Db) : Db * option string :=
  if negb (is_open d) then (d, Some "SQLITE_MISUSE: Database is closed")
  else match fault with
       | Some e => (d, Some e)
       | None =>
           match tables d !! name with
           | Some _ =>
               if if_not_exists then (d, None)
               else (d, Some ("SQLITE_ERROR: table " +:+ name +:+ " already exists"))
           | None => (mkDb true (<[name := mkTable cols [] 0]> (tables d)), None)
           end
       end.

(** [db.run("INSERT INTO protected_trades (raw_tx,
    protection_relay_tx_hash, status) VALUES (?, ?, ?)", params, cb)]:
    the database left, the error handed to [cb], and [this.lastID]. *)
Definition run_insert (fault : option string) (now : string)
    (raw : JsVal) (hash st : string) (d : Db) : Db * option string * Z :=
  if negb (is_open d) then (d, Some "SQLITE_MISUSE: Database is closed", 0)
  else match fault with
       | Some e => (d, Some e, 0)
       | None =>
           match tables d !! TABLE with
           | None => (d, Some "SQLITE_ERROR: no such table: protected_trades", 0)
           | Some t =>
               if is_sql_null raw then
                 (d, Some "SQLITE_CONSTRAINT: NOT NULL constraint failed: protected_trades.raw_tx", 0)
               else if MAX_ROWID <=? Z.max (seq t) (max_id (rows t)) then
                 (d, Some "SQLITE_FULL: database or disk is full", 0)
               else
                 let i := next_id t in
                 let t' := mkTable (columns t) (rows t ++ [mkRow i raw hash st now]) i in
                 (mkDb true (<[TABLE := t']> (tables d)), None, i)
           end
       end.

(** The rows of [protected_trades] ([[]] while the table is missing). *)
Definition trades (d : Db) : list Row :=
  match tables d !! TABLE with
  | Some t => rows t
  | None => []
  end.

(** The invariant of the stored trades: every [raw_tx] is truthy and the
    ids strictly increase in insertion order. *)
Definition trades_ok (rs : list Row) : Prop :=
  Forall (fun r => to_boolean (raw_tx r) = true) rs /\
  StronglySorted Z.lt (id <$> rs).

(** [initDb]: creates the table when it is missing; under [--init-db]
    the callback then closes the database and exits the process.
    Returns the database, the error the callback saw, and whether the
    process exited. *)
Definition initDb (init_flag : bool) (fault : option string) (d : Db)
  : Db * option string * bool :=
  let '(d1, err) := run_create_table fault true TABLE COLUMNS d in
  if init_flag then (close d1, err, true) else (d1, err, false).

End Store.

(** ** The trade submission pipeline: [POST /api/protect] *)

Module Protect.
Import Store.

(** [res.status(code).json(body)] *)
Record HttpResponse := mkResponse {
  http_status : nat;
  body : list (string * JsVal)
}.

(** What one request draws from its environment. *)
Record Env := mkEnv {
  random_hex : string;            (* Math.random().toString(16) *)
  engine_fault : option string;   (* the SQLite engine failing on this statement *)
  current_timestamp : string      (* CURRENT_TIMESTAMP at insert time *)
}.

(** A call the handler makes on the database handle. *)
Inductive DbCall : Type :=
| RunInsert (raw : JsVal) (hash st : string).

Record Outcome := mkOutcome {
  response : HttpResponse;
  db_after : Db;
  db_calls : list DbCall
}.

Definition mockTxHash (e : Env) : string :=
  "0xsim-log-" +:+ slice 2 10 (random_hex e).

Definition bad_request : HttpResponse :=
  mkResponse 400
    [("success", JBool false); ("message", JStr "Raw transaction data is required.")].

Definition db_error : HttpResponse :=
  mkResponse 500
    [("success", JBool false); ("message", JStr "Database error while logging trade.")].

Definition logged (hash : string) (lastID : Z) : HttpResponse :=
  mkResponse 200
    [("success", JBool true);
     ("message", JStr "Trade successfully logged to Private MEV-Protection Relay.");
     ("txHash", JStr hash);
     ("dbId", JNum (inject_Z lastID))].

(** The handler of [POST /api/protect]. *)
Definition protect (req_body : list (string * JsVal)) (e : Env) (d : Db) : Outcome :=
  let rawTransaction := destructure req_body "rawTransaction" in
  let hash := mockTxHash e in
  let st := "Submitted_Protected" in
  if negb (to_boolean rawTransaction) then mkOutcome bad_request d []
  else
    let '(d', err, lastID) :=
      run_insert (engine_fault e) (current_timestamp e) rawTransaction hash st d in
    match err with
    | Some _ => mkOutcome db_error d' [RunInsert rawTransaction hash st]
    | None => mkOutcome (logged hash lastID) d' [RunInsert rawTransaction hash st]
    end.

(** [submit(rawTransaction)]: the request the client sends for it. *)
Definition submit (rawTransaction : JsVal) (e : Env) (d : Db) : Outcome :=
  protect [("rawTransaction", rawTransaction)] e d.

(** A sequence of requests served one after the other. *)
Fixpoint serve (reqs : list (list (string * JsVal) * Env)) (d : Db) : Db :=
  match reqs with
  | [] => d
  | (b, e) :: reqs' => serve reqs' (db_after (protect b e d))
  end.

Definition success_of (r : HttpResponse) : JsVal := destructure (body r) "success".

End Protect.

(** ** Process start-up: opening the store, [initDb], [server.listen] *)

Module Startup.
Import Store.

Record Process := mkProcess {
  db : Db;
  listening : bool;   (* [server.listen] has been called *)
  exited : bool       (* [process.exit] has been called *)
}.

(** What start-up draws from its environment. *)
Record Env := mkEnv {
  init_db_flag : bool;            (* process.argv.includes('--init-db') *)
  open_fault : option string;     (* the error of opening the database *)
  create_fault : option string;   (* the error of the CREATE TABLE statement *)
  file : gmap string Table        (* the tables already in mevshield.db *)
}.

(** The top level of the server module, as far as the store and the
    HTTP server are concerned. *)
Definition main (e : Env) : Process :=
  let '(d0, _) := open_db (open_fault e) (file e) in
  if init_db_flag e then
    let '(d1, _, ex) := initDb true (create_fault e) d0 in
    mkProcess d1 false ex
  else
    let '(d1, _, ex) := initDb false (create_fault e) d0 in
    mkProcess d1 true ex.

(** A first start on an empty database file, with nothing failing. *)
Definition fresh : Process := main (mkEnv false None None ∅).

(** A start whose database opens but whose CREATE TABLE fails. *)
Definition uninitialised : Env :=
  mkEnv false None (Some "SQLITE_IOERR: disk I/O error") ∅.

(** A start whose database cannot be opened. *)
Definition unavailable : Env :=
  mkEnv false (Some "SQLITE_CANTOPEN: unable to open database file") None ∅.

(** A request to [POST /api/protect] reaches its handler only while the
    server listens. *)
Definition post_protect (p : Process) (req_body : list (string * JsVal))
    (e : Protect.Env) : option (Protect.Outcome * Process) :=
  if listening p && negb (exited p) then
    let o := Protect.protect req_body e (db p) in
    Some (o, mkProcess (Protect.db_after o) (listening p) (exited p))
  else None.

End Startup.

(** ** The synthetic event generator: [generateLocalAttack] *)

Module Generator.

Definition MEV_ATTACK_TYPES : list string :=
  ["Sandwich Attack"; "Front-Run"; "Arbitrage Exploitation"; "Liquidation Attack"].

Record AttackEvent := mkEvent {
  id : Z;
  transaction : string;
  method : JsVal;
  value : string;
  riskScore : string;
  rationale : string;
  status : string;
  timestamp : string
}.

(** What one call draws from its environment, in source order. *)
Record Env := mkEnv {
  tx_random_hex : string;   (* Math.random().toString(16) *)
  now_ms : Z;               (* Date.now() *)
  method_random : Q;        (* Math.random(), for the category *)
  value_random : Q;         (* Math.random(), for the value *)
  risk_random : Q;          (* Math.random(), for the risk score *)
  local_time : string       (* new Date().toLocaleTimeString() *)
}.

(** [Math.random()] returns a number in [[0, 1)]. *)
Definition unit_interval (r : Q) : Prop := (0 <= r)%Q /\ (r < 1)%Q.

Definition well_formed (e : Env) : Prop :=
  unit_interval (method_random e) /\ unit_interval (value_random e) /\
  unit_interval (risk_random e).

(** [arr[i]] for an integer index: [None] is [undefined]. *)
Definition index {A} (l : list A) (i : Z) : option A :=
  if i <? 0 then None else l !! Z.to_nat i.

(** A value spliced into a template literal. *)
Definition splice (o : option string) : string := default "undefined" o.

Definition pad4 (s : string) : string :=
  String.substring 0 (4 - String.length s) "0000" +:+ s.

(** [x.toFixed(4)] *)
Definition toFixed4 (x : Q) : string :=
  let sign := if Qle_bool 0 x then EmptyString else "-" in
  let n := Qfloor (Qabs x * 10000 + (1 # 2))%Q in
  sign +:+ pretty (n / 10000) +:+ "." +:+ pad4 (pretty (n mod 10000)).

Definition risk_of (r : Q) : Z := Qfloor (r * 50)%Q + 50.

(** [generateLocalAttack()]: the event and the new [attackCounter]. *)
Definition generateLocalAttack (e : Env) (attackCounter : Z) : AttackEvent * Z :=
  let attackCounter := attackCounter + 1 in
  let rawTxMock :=
    "0xTx" +:+ slice 2 10 (tx_random_hex e) +:+ slice_last 4 (pretty (now_ms e)) in
  let attackMethod :=
    index MEV_ATTACK_TYPES
      (Qfloor (method_random e * inject_Z (Z.of_nat (length MEV_ATTACK_TYPES)))%Q) in
  (mkEvent attackCounter
     (slice 0 10 rawTxMock +:+ "...")
     (from_option JStr JUndefined attackMethod)
     (toFixed4 (value_random e * 15 + 1)%Q +:+ " ETH")
     (pretty (risk_of (risk_random e)) +:+ "/100")
     ("Locally simulated. Attacker is monitoring " +:+ splice attackMethod +:+ " opportunities.")
     "Local Simulation"
     (local_time e),
   attackCounter).

(** [n] successive calls, from a given counter: the events in call
    order and the counter left. *)
Fixpoint generate_many (es : list Env) (attackCounter : Z) : list AttackEvent * Z :=
  match es with
  | [] => ([], attackCounter)
  | e :: es' =>
      let '(ev, c) := generateLocalAttack e attackCounter in
      let '(evs, c') := generate_many es' c in
      (ev :: evs, c')
  end.

(** The numeric part of a risk score, as [/api/simulate] takes it:
    [riskScore.split('/')[0]]. *)
Definition numeric_part (score : string) : string := split_head "/" score.

End Generator.

(** ** The broadcast hub: Socket.io connections and [io.emit] *)

Module Hub.
Import Generator.

Definition PRIVATE_MEMPOOL_ENABLED : bool := true.

Inductive Payload : Type :=
| StatusPayload (message : string)
| AttackPayload (ev : AttackEvent).

(** [socket.emit(event, payload)] as the client receives it. *)
Record Emitted := mkEmitted {
  event : string;
  payload : Payload
}.

Record Socket := mkSocket {
  socket_id : string;
  connected : bool;
  outbox : list Emitted
}.

(** The server state the hub works on: the sockets in connection order
    and the process-wide [attackCounter]. *)
Record State := mkState {
  sockets : list Socket;
  attackCounter : Z
}.

Definition initial : State := mkState [] 0.

Definition status_message (enabled : bool) : string :=
  "Connected to MEV-Shield server. Private Mempool Status: "
  +:+ (if enabled then "Active (private mempool)" else "Inactive") +:+ ".".

Definition STATUS : Emitted :=
  mkEmitted "STATUS" (StatusPayload (status_message PRIVATE_MEMPOOL_ENABLED)).

(** The ['connection'] handler: Socket.io hands it a new socket. *)
Definition on_connection (sid : string) (s : State) : State :=
  mkState (sockets s ++ [mkSocket sid true [STATUS]]) (attackCounter s).

(** Socket [i] disconnects (the handler itself only logs). *)
Definition on_disconnect (i : nat) (s : State) : State :=
  mkState (alter (fun k => mkSocket (socket_id k) false (outbox k)) i (sockets s))
          (attackCounter s).

Definition deliver (m : Emitted) (k : Socket) : Socket :=
  if connected k then mkSocket (socket_id k) true (outbox k ++ [m]) else k.

(** [io.emit(event, payload)]: to every connected socket. *)
Definition io_emit (m : Emitted) (ks : list Socket) : list Socket := deliver m <$> ks.

(** [broadcastAttack()] *)
Definition broadcastAttack (e : Generator.Env) (s : State) : State :=
  let '(attackMessage, c) := generateLocalAttack e (attackCounter s) in
  mkState (io_emit (mkEmitted "new_attack" (AttackPayload attackMessage)) (sockets s)) c.

Inductive Input : Type :=
| Connect (sid : string)
| Disconnect (i : nat)
| TriggerAttack (e : Generator.Env).

Definition step (s : State) (i : Input) : State :=
  match i with
  | Connect sid => on_connection sid s
  | Disconnect n => on_disconnect n s
  | TriggerAttack e => broadcastAttack e s
  end.

Definition run (ins : list Input) : State := foldl step initial ins.

Definition is_status (m : Emitted) : bool := String.eqb (event m) "STATUS".

(** A socket's outbox starts with the status message and holds no other. *)
Definition status_once (k : Socket) : Prop :=
  exists rest, outbox k = STATUS :: rest /\ Forall (fun m => is_status m = false) rest.

End Hub.

(** ** The risk analyzer facade: [geminiRiskAnalyzer] and its caller *)

Module Analyzer.

(** The argument of [ai.models.generateContent]. *)
Record Request := mkRequest {
  model : string;
  prompt : string;             (* contents[0].parts[0].text, role "user" *)
  responseMimeType : string
}.

(** The SDK's response; its [text] is a string or [undefined]. *)
Record Response := mkResponse {
  text : option string
}.

Record Models := mkModels {
  generateContent : option (Request -> Completion Response)
}.

Record GoogleGenAI := mkClient {
  models : option Models
}.

(** The module-level initialisation of [ai]: [null] unless the key is
    set and the SDK constructor returns.  The catch block reads
    [err.message] before it resets [ai], so a thrown [undefined] or
    [null] makes the module itself throw while loading. *)
Definition init_ai (GEMINI_API_KEY : option string)
    (construct : string -> Completion GoogleGenAI) : Completion (option GoogleGenAI) :=
  match GEMINI_API_KEY with
  | Some key =>
      if to_boolean (JStr key) then
        match construct key with
        | Returned client => Returned (Some client)
        | Threw err =>
            (* console.warn(..., err.message) *)
            let! _ := get_prop err "message" in
            Returned None
        end
      else Returned None
  | None => Returned None
  end.

Definition quoted (s : string) : string := dq +:+ s +:+ dq.

Definition mock_prompt (tradeData : string) : string :=
  "Simulate an MEV attack scenario targeting a typical raw transaction like "
  +:+ tradeData +:+ ". Provide a JSON object with: { "
  +:+ quoted "riskScore" +:+ ": " +:+ quoted "X/100" +:+ ", "
  +:+ quoted "attackType" +:+ ": "
  +:+ quoted "A single MEV type (Sandwich Attack, Front-Run, Liquidation Attack, Arbitrage Exploitation)"
  +:+ ", " +:+ quoted "rationale" +:+ ": "
  +:+ quoted "Brief, technical rationale for why this attack type is likely." +:+ " }".

Definition description_prompt (tradeData : string) : string :=
  "Analyze the potential MEV risk for this transaction description: "
  +:+ quoted tradeData +:+ ". Assume this is a DEX trade. Output a JSON object with: { "
  +:+ quoted "riskScore" +:+ ": " +:+ quoted "X/100" +:+ ", "
  +:+ quoted "attackType" +:+ ": " +:+ quoted "The most likely MEV type this trade attracts"
  +:+ ", " +:+ quoted "rationale" +:+ ": "
  +:+ quoted "Brief analysis of the risk and potential value impact." +:+ " }".

Definition assessment (score type why : string) : JsVal :=
  JObj [("riskScore", JStr score); ("attackType", JStr type); ("rationale", JStr why)].

Definition UNAVAILABLE : JsVal :=
  assessment "50/100" "AI Unavailable"
    "Gemini API key missing or SDK not initialized. Using fallback analysis.".

Definition API_ERROR : JsVal :=
  assessment "50/100" "API Error/Unknown MEV"
    "AI risk analysis failed due to API error/quota limit. Proceed with caution.".

(** [JSON.parse(response.text)]: an [undefined] text is parsed as the
    string ["undefined"]. *)
Definition parse_text (r : Response) : Completion JsVal :=
  match JSON_parse (default "undefined" (text r)) with
  | Some v => Returned v
  | None => Threw (mk_error "SyntaxError" "Unexpected token in JSON")
  end.

(** [geminiRiskAnalyzer(tradeData)], by the completion of its promise. *)
Definition geminiRiskAnalyzer (ai : option GoogleGenAI) (tradeData : string)
  : Completion JsVal :=
  let prompt :=
    if startsWith tradeData "0xTx" then mock_prompt tradeData
    else description_prompt tradeData in
  match ai with
  | None => Returned UNAVAILABLE
  | Some client =>
      match models client with
      | None => Returned UNAVAILABLE
      | Some m =>
          match generateContent m with
          | None => Returned UNAVAILABLE
          | Some call =>
              match (let! response :=
                       call (mkRequest "gemini-2.5-flash" prompt "application/json") in
                     parse_text response) with
              | Returned v => Returned v
              | Threw e =>
                  (* console.error(..., e.message) *)
                  let! _ := get_prop e "message" in
                  Returned API_ERROR
              end
          end
      end
  end.

(** [v.split('/')[0]] on a value: only strings have [split]. *)
Definition split_slash_head (v : JsVal) : Completion JsVal :=
  match v with
  | JStr s => Returned (JStr (split_head "/" s))
  | JUndefined | JNull =>
      Threw (mk_error "TypeError" "Cannot read properties of undefined (reading 'split')")
  | _ => Threw (mk_error "TypeError" "analysis.riskScore.split is not a function")
  end.

(** The body [/api/simulate] answers with, from the analysis it awaited. *)
Definition simulate_reply (analysis : JsVal) : Completion JsVal :=
  let! score := get_prop analysis "riskScore" in
  let! risk := split_slash_head score in
  let! details := get_prop analysis "rationale" in
  let! attackType := get_prop analysis "attackType" in
  Returned (JObj [("success", JBool true);
                  ("simulation", JObj [("risk", risk); ("details", details);
                                       ("attackType", attackType)])]).

(** The shape of a RiskAssessment: an object carrying the three fields. *)
Definition has_field (k : string) (v : JsVal) : bool :=
  match v with
  | JObj fs => bool_decide (is_Some (assoc_get k fs))
  | _ => false
  end.

(** What a [catch] can read [message] from: anything but [undefined]
    and [null]. *)
Definition has_properties (e : JsVal) : bool :=
  match e with JUndefined | JNull => false | _ => true end.

Definition is_risk_assessment (v : JsVal) : bool :=
  has_field "riskScore" v && has_field "attackType" v && has_field "rationale" v.

(** A client whose call answers every request with the given completion. *)
Definition client_answering (c : Completion Response) : GoogleGenAI :=
  mkClient (Some (mkModels (Some (fun _ => c)))).

End Analyzer.

(** ** Concrete inputs used to run the definitions *)

Module Scenario.

Definition request1 : Protect.Env :=
  Protect.mkEnv "0.8f3a91c2d4e5" None "2025-01-01 10:00:00".

Definition request2 : Protect.Env :=
  Protect.mkEnv "0.1b2c3d4e5f6a7" None "2025-01-01 10:00:05".

Definition draw1 : Generator.Env :=
  Generator.mkEnv "0.8f3a91c2d4" 1730486712345 (3 # 4) (1 # 3) (999 # 1000) "6:31:12 PM".

Definition draw2 : Generator.Env :=
  Generator.mkEnv "0.c" 1730486713001 0 (1 # 2) 0 "6:31:13 PM".

(** A reply that is valid JSON but not an object at all. *)
Definition array_reply : Analyzer.Response := Analyzer.mkResponse (Some "[]").

(** A reply that is a JSON object with one of the three fields only:
    a riskScore of 10/100. *)
Definition partial_reply : Analyzer.Response :=
  Analyzer.mkResponse
    (Some ("{" +:+ Analyzer.quoted "riskScore" +:+ ":" +:+ Analyzer.quoted "10/100" +:+ "}")).

Definition description : string := "Buy 10 shares of TATA on a major Indian exchange.".

End Scenario.

(** ** More of the runtime: [ToString] and [includes] *)

Module Text.

Definition join (sep : string) (parts : list string) : string :=
  match parts with
  | [] => EmptyString
  | p :: ps => foldl (fun acc x => acc +:+ sep +:+ x) p ps
  end.

(** ToString, as a template literal applies it to a spliced value.
    [None]: a number that is not an integer below [10^21] in size, whose
    digits depend on its IEEE representation. *)
Fixpoint ToString (v : JsVal) : option string :=
  match v with
  | JUndefined => Some "undefined"
  | JNull => Some "null"
  | JBool b => Some (if b then "true" else "false")
  | JNum q =>
      let r := Qred q in
      if (Qden r =? 1)%positive && (Z.abs (Qnum r) <? 10 ^ 21)
      then Some (pretty (Qnum r)) else None
  | JNaN => Some "NaN"
  | JStr s => Some s
  | JArr items =>
      parts ← (fix each (l : list JsVal) : option (list string) :=
                 match l with
                 | [] => Some []
                 | x :: l' =>
                     p ← match x with
                         | JUndefined | JNull => Some EmptyString
                         | _ => ToString x
                         end;
                     ps ← each l';
                     Some (p :: ps)
                 end) items;
      Some (join "," parts)
  | JObj _ => Some "[object Object]"
  end.

(** [s.includes(sub)] *)
Fixpoint includes (sub s : string) : bool :=
  String.prefix sub s ||
  match s with
  | EmptyString => false
  | String _ s' => includes sub s'
  end.

(** [v === s] for a string literal [s]. *)
Definition strict_eq_str (v : JsVal) (s : string) : bool :=
  match v with
  | JStr s' => String.eqb s' s
  | _ => false
  end.

End Text.

(** ** The remaining routes: trigger-attack, simulate, wallet-health *)

Module Routes.
Import Text.

(** [POST /api/trigger-attack]: the body answered and the hub state left. *)
Definition trigger_attack (e : Generator.Env) (s : Hub.State)
  : list (string * JsVal) * Hub.State :=
  let s' := Hub.broadcastAttack e s in
  ([("success", JBool true); ("message", JStr "Simulated attack broadcast initiated.")], s').

(** The template literal of [/api/simulate] over the three body fields. *)
Definition tradeDescription (req_body : list (string * JsVal)) : option string :=
  let stock := destructure req_body "stock" in
  let action := destructure req_body "action" in
  let quantity := destructure req_body "quantity" in
  a ← ToString action;
  q ← ToString quantity;
  k ← ToString stock;
  Some (a +:+ " " +:+ q +:+ " shares of " +:+ k +:+ " on a major Indian exchange.").

(** [POST /api/simulate]: the body answered, or what the handler throws. *)
Definition simulate (ai : option Analyzer.GoogleGenAI) (req_body : list (string * JsVal))
  : option (Completion JsVal) :=
  td ← tradeDescription req_body;
  Some (let! analysis := Analyzer.geminiRiskAnalyzer ai td in
        Analyzer.simulate_reply analysis).

(** [GET /api/wallet-health/:address], from the route parameter and the
    draw of [Math.random()]. *)
Definition wallet_health (address : string) (r : Q) : JsVal :=
  JObj [("success", JBool true);
        ("address", JStr address);
        ("balance", JStr "5.23 ETH");
        ("transactionsLast24h", JNum 12);
        ("mevExposureScore", JNum (inject_Z (Qfloor (r * 100)%Q)));
        ("alerts",
         JArr [JStr "High-risk token approval detected 3 days ago.";
               JStr (if Hub.PRIVATE_MEMPOOL_ENABLED
                     then "System is configured for MEV protection."
                     else "Warning: Not using a private mempool exposes you to MEV.")])].

End Routes.

(** ** The client: the React component [App] *)

Module Client.
Import Text.

Definition API_BASE_URL : string := "/api".

(** A request the client sends: the URL and the object it stringifies. *)
Definition Request : Type := string * list (string * JsVal).

(** *** The socket handlers *)

(** The part of the component state the socket handlers write. *)
Record Feed := mkFeed {
  status : JsVal;
  liveAttacks : list Hub.Payload
}.

Definition initial : Feed := mkFeed (JStr "Connecting...") [].

(** The ['connect'] and ['disconnect'] handlers. *)
Definition on_connect (c : Feed) : Feed :=
  mkFeed (JStr "Connected to server.") (liveAttacks c).

Definition on_disconnect (c : Feed) : Feed :=
  mkFeed (JStr "Disconnected. Attempting reconnect...") (liveAttacks c).

(** [msg.message] on a received payload. *)
Definition message_of (p : Hub.Payload) : JsVal :=
  match p with
  | Hub.StatusPayload m => JStr m
  | Hub.AttackPayload _ => JUndefined
  end.

(** The state update of the ['new_attack'] handler:
    [[attack, ...prev].slice(0, 10)]. *)
Definition push_attack {A} (attack : A) (prev : list A) : list A :=
  take 10 (attack :: prev).

(** One message arriving from the server. *)
Definition receive (c : Feed) (m : Hub.Emitted) : Feed :=
  if String.eqb (Hub.event m) "STATUS" then
    mkFeed (message_of (Hub.payload m)) (liveAttacks c)
  else if String.eqb (Hub.event m) "new_attack" then
    mkFeed (status c) (push_attack (Hub.payload m) (liveAttacks c))
  else c.

(** A session: the connection is established, then the messages of the
    socket arrive in the order they were emitted. *)
Definition session (messages : list Hub.Emitted) : Feed :=
  foldl receive (on_connect initial) messages.

(** What the client whose connection is socket [k] has on screen: its
    session over the messages sent to [k] and, once [k] is
    disconnected, the ['disconnect'] handler after them. *)
Definition view (k : Hub.Socket) : Feed :=
  if Hub.connected k then session (Hub.outbox k)
  else on_disconnect (session (Hub.outbox k)).

(** *** The live feed items *)

Record FeedItem := mkFeedItem {
  key : Z;
  className : string;
  method_text : string;
  value_text : string;
  transaction_text : string;
  riskScore_text : string
}.

(** One item of [liveAttacks.map(...)]. *)
Definition render_attack (attack : Hub.Payload) : Completion FeedItem :=
  match attack with
  | Hub.AttackPayload ev =>
      match Generator.method ev with
      | JStr m =>
          Returned (mkFeedItem (Generator.id ev)
                      (if includes "Attack" m then "risk-high" else "risk-low")
                      m (Generator.value ev) (Generator.transaction ev)
                      (Generator.riskScore ev))
      | JUndefined | JNull =>
          Threw (mk_error "TypeError" "Cannot read properties of undefined (reading 'includes')")
      | _ => Threw (mk_error "TypeError" "attack.method.includes is not a function")
      end
  | Hub.StatusPayload _ =>
      Threw (mk_error "TypeError" "Cannot read properties of undefined (reading 'includes')")
  end.

(** *** Submitting a protected trade *)

Record SubmitResult := mkSubmitResult {
  requests : list Request;
  alerts : list string;
  rawTx_after : string
}.

Definition protect_request (rawTx : string) : Request :=
  (API_BASE_URL +:+ "/protect", [("rawTransaction", JStr rawTx)]).

(** [handleSubmitProtectedTrade]; [fetch] gives the completion of
    [fetch(...)] followed by [res.json()]. *)
Definition handleSubmitProtectedTrade (rawTx : string)
    (fetch : Request -> Completion JsVal) : option SubmitResult :=
  if negb (to_boolean (JStr rawTx)) then Some (mkSubmitResult [] [] rawTx)
  else
    let req := protect_request rawTx in
    match (let! data := fetch req in
           let! ok := get_prop data "success" in
           let! message := get_prop data "message" in
           let! txHash := get_prop data "txHash" in
           Returned (ok, message, txHash)) with
    | Returned (ok, message, txHash) =>
        if to_boolean ok then
          m ← ToString message;
          h ← ToString txHash;
          Some (mkSubmitResult [req] ["SUCCESS! " +:+ m +:+ " Tx Hash: " +:+ h] EmptyString)
        else
          m ← ToString message;
          Some (mkSubmitResult [req] ["ERROR: " +:+ m] rawTx)
    | Threw _ =>
        Some (mkSubmitResult [req] ["An unexpected error occurred during submission."] rawTx)
    end.

(** *** Running a simulation *)

Definition simulation_request (tradeInput : string) : Request :=
  (API_BASE_URL +:+ "/simulate", [("tradeDescription", JStr tradeInput)]).

(** [handleSimulation]: the requests sent and the new [simulationResult]. *)
Definition handleSimulation (tradeInput : string)
    (fetch : Request -> Completion JsVal) (simulationResult : JsVal)
  : list Request * JsVal :=
  if negb (to_boolean (JStr tradeInput)) then ([], simulationResult)
  else
    let req := simulation_request tradeInput in
    match (let! data := fetch req in
           let! ok := get_prop data "success" in
           if to_boolean ok then
             let! simulation := get_prop data "simulation" in
             Returned simulation
           else Returned simulationResult) with
    | Returned r => ([req], r)
    | Threw _ => ([req], simulationResult)
    end.

Record SimulationPanel := mkPanel {
  risk_class : string;
  risk_text : JsVal;
  impact_class : string;
  impact_text : JsVal;
  rationale_text : JsVal
}.

(** The results panel: [simulationResult && (...)]. *)
Definition render_simulation (simulationResult : JsVal)
  : Completion (option SimulationPanel) :=
  if negb (to_boolean simulationResult) then Returned None
  else
    let! risk := get_prop simulationResult "risk" in
    let! profitLoss := get_prop simulationResult "profitLoss" in
    match profitLoss with
    | JStr p =>
        let! details := get_prop simulationResult "details" in
        Returned (Some (mkPanel (if strict_eq_str risk "High" then "risk-high" else "risk-low")
                                risk
                                (if startsWith p "+" then "profit" else "loss")
                                profitLoss details))
    | JUndefined | JNull =>
        Threw (mk_error "TypeError" "Cannot read properties of undefined (reading 'startsWith')")
    | _ => Threw (mk_error "TypeError" "simulationResult.profitLoss.startsWith is not a function")
    end.

End Client.

(** ** Reading a run of the store *)

Module StoreTrace.
Import Store.

(** A database whose trades carry the ids 1, 2, ... in order and whose
    sequence entry is the number of rows. *)
Definition counted (d : Db) : Prop :=
  exists t, tables d !! TABLE = Some t /\
            seq t = Z.of_nat (length (rows t)) /\
            id <$> rows t = (fun i => Z.of_nat i + 1) <$> List.seq 0 (length (rows t)).

End StoreTrace.

(** ** Reading a run of the hub *)

Module Trace.
Import Hub.

(** The ids of the attack events in an outbox, in order. *)
Definition attack_ids (out : list Emitted) : list Z :=
  omap (fun m => match payload m with
                 | AttackPayload ev => Some (Generator.id ev)
                 | StatusPayload _ => None
                 end) out.

Fixpoint triggers (ins : list Input) : nat :=
  match ins with
  | [] => 0
  | TriggerAttack _ :: ins' => S (triggers ins')
  | _ :: ins' => triggers ins'
  end.

Fixpoint connections (ins : list Input) : nat :=
  match ins with
  | [] => 0
  | Connect _ :: ins' => S (connections ins')
  | _ :: ins' => connections ins'
  end.

(** The attack ids of an outbox increase strictly and lie in [(lo, hi]]. *)
Definition ids_between (lo hi : Z) (k : Socket) : Prop :=
  StronglySorted Z.lt (attack_ids (outbox k)) /\
  Forall (fun j => lo < j <= hi) (attack_ids (outbox k)).

(** The message [io.emit('new_attack', ev)] puts in an outbox. *)
Definition new_attack (ev : Generator.AttackEvent) : Emitted :=
  mkEmitted "new_attack" (AttackPayload ev).

(** An outbox made of the status message and then attack events only. *)
Definition outbox_of (evs : list Generator.AttackEvent) (k : Socket) : Prop :=
  outbox k = STATUS :: (new_attack <$> evs).

(** The message [io.emit] sends for one trigger fired at counter [c]. *)
Definition attack_message (e : Generator.Env) (c : Z) : Emitted :=
  mkEmitted "new_attack" (AttackPayload (Generator.generateLocalAttack e c).1).

End Trace.

(** * Properties *)

(** ** The store *)

Section StoreFacts.
Import Store.

Lemma max_id_bound (rs : list Row) : Forall (fun r => id r <= max_id rs) rs.
Proof.
  induction rs as [|r rs IH]; simpl; constructor.
  - lia.
  - eapply Forall_impl; [exact IH|]. simpl; intros; lia.
Qed.

Lemma next_id_fresh (t : Table) : Forall (fun r => id r < next_id t) (rows t).
Proof.
  eapply Forall_impl; [apply max_id_bound|].
  unfold next_id; simpl; intros; lia.
Qed.

(** What a successful insert did. *)
Lemma run_insert_ok fault now raw hash st d d' i :
  run_insert fault now raw hash st d = (d', None, i) ->
  exists t, tables d !! TABLE = Some t /\ is_sql_null raw = false /\
            i = next_id t /\ i <= MAX_ROWID /\
            trades d' = rows t ++ [mkRow i raw hash st now] /\
            trades d = rows t.
Proof.
  unfold run_insert, trades.
  destruct (is_open d); simpl; [|discriminate].
  destruct fault; [discriminate|].
  destruct (tables d !! TABLE) as [t|] eqn:Ht; [|discriminate].
  destruct (is_sql_null raw); [discriminate|].
  destruct (MAX_ROWID <=? _) eqn:Hfull; [discriminate|].
  intros [= <- <-]. exists t. simpl. rewrite lookup_insert_eq.
  apply Z.leb_gt in Hfull. unfold next_id. repeat split; auto; lia.
Qed.

(** A failed insert leaves the database as it was. *)
Lemma run_insert_err fault now raw hash st d d' e i :
  run_insert fault now raw hash st d = (d', Some e, i) -> d' = d.
Proof.
  unfold run_insert.
  destruct (is_open d); simpl; [|congruence].
  destruct fault; [congruence|].
  destruct (tables d !! TABLE); [|congruence].
  destruct (is_sql_null raw); [congruence|].
  destruct (MAX_ROWID <=? _); congruence.
Qed.

Lemma StronglySorted_snoc {A} (R : A -> A -> Prop) (l : list A) (y : A) :
  StronglySorted R l -> Forall (fun x => R x y) l -> StronglySorted R (l ++ [y]).
Proof.
  induction 1 as [|x l Hl IH Hx]; intros Hy; simpl.
  - repeat constructor.
  - inversion Hy as [|? ? Hxy Hly]; subst. constructor; [by apply IH|].
    apply Forall_app; split; [done|]. by constructor.
Qed.

Lemma StronglySorted_lt_NoDup (l : list Z) : StronglySorted Z.lt l -> NoDup l.
Proof.
  induction 1 as [|x l Hl IH Hx]; constructor; [|done].
  intros Hin. rewrite Forall_forall in Hx. specialize (Hx x Hin). lia.
Qed.

Lemma trades_ok_snoc rs r :
  trades_ok rs -> to_boolean (raw_tx r) = true -> Forall (fun r' => id r' < id r) rs ->
  trades_ok (rs ++ [r]).
Proof.
  intros [Hraw Hsort] Hr Hlt. split.
  - apply Forall_app; split; [done|]. by constructor.
  - rewrite fmap_app. apply StronglySorted_snoc; [done|].
    by apply Forall_fmap.
Qed.

(** Initialisation of an open database, nothing failing: no error, the
    table is there, and a table that was there is left alone. *)
Lemma initDb_open flag d :
  is_open d = true ->
  exists d1, initDb flag None d = (if flag then close d1 else d1, None, flag) /\
             is_open d1 = true /\
             is_Some (tables d1 !! TABLE) /\
             (is_Some (tables d !! TABLE) -> d1 = d) /\
             (tables d !! TABLE = None ->
              tables d1 = <[TABLE := mkTable COLUMNS [] 0]> (tables d)).
Proof.
  intros Ho. unfold initDb, run_create_table. rewrite Ho. simpl.
  destruct (tables d !! TABLE) as [t|] eqn:Ht.
  - exists d. split; [by destruct flag|]. split; [done|]. split; [by eexists|].
    split; [done|]. intros; discriminate.
  - eexists. split; [by destruct flag|]. simpl.
    rewrite lookup_insert_eq. split; [done|]. split; [by eexists|].
    split; [|done]. by intros [? ?].
Qed.

End StoreFacts.

(** ** The submission pipeline *)

Section ProtectFacts.
Import Store Protect.

(** A falsy [rawTransaction] is answered 400 before the store is touched. *)
Lemma protect_falsy body e d :
  to_boolean (destructure body "rawTransaction") = false ->
  protect body e d = mkOutcome bad_request d [].
Proof. intros H. unfold protect. by rewrite H. Qed.

(** A truthy [rawTransaction] issues one INSERT and answers by its result. *)
Lemma protect_truthy body e d :
  to_boolean (destructure body "rawTransaction") = true ->
  let raw := destructure body "rawTransaction" in
  let '(d', err, lastID) :=
    run_insert (engine_fault e) (current_timestamp e) raw (mockTxHash e)
               "Submitted_Protected" d in
  protect body e d =
    mkOutcome (match err with Some _ => db_error | None => logged (mockTxHash e) lastID end) d'
              [RunInsert raw (mockTxHash e) "Submitted_Protected"].
Proof.
  intros H. unfold protect. rewrite H. simpl.
  destruct (run_insert _ _ _ _ _ _) as [[d' err] lastID].
  by destruct err.
Qed.

Lemma nonempty_truthy (s : string) : s <> EmptyString -> to_boolean (JStr s) = true.
Proof.
  intros H. simpl. destruct (String.eqb_spec s EmptyString); [contradiction|done].
Qed.

Lemma truthy_nonempty (s : string) : to_boolean (JStr s) = true -> s <> EmptyString.
Proof. intros H ->. discriminate. Qed.

Lemma mockTxHash_prefix e : String.prefix "0xsim-log-" (mockTxHash e) = true.
Proof. unfold mockTxHash. simpl. by destruct (slice 2 10 (random_hex e)). Qed.

Lemma logged_not_db_error hash i : logged hash i <> db_error.
Proof. discriminate. Qed.

(** What one submission of a non-empty string does, by the result of
    its INSERT. *)
Lemma submit_cases (s : string) e d :
  s <> EmptyString ->
  let o := submit (JStr s) e d in
  let hash := mockTxHash e in
  db_calls o = [RunInsert (JStr s) hash "Submitted_Protected"] /\
  ((exists i, response o = logged hash i /\
              trades (db_after o) =
                trades d ++ [mkRow i (JStr s) hash "Submitted_Protected" (current_timestamp e)] /\
              Forall (fun r => id r < i) (trades d))
   \/ (response o = db_error /\ db_after o = d)).
Proof.
  intros Hs. simpl. unfold submit.
  pose proof (protect_truthy [("rawTransaction", JStr s)] e d) as H.
  change (destructure [("rawTransaction", JStr s)] "rawTransaction") with (JStr s) in H.
  specialize (H (nonempty_truthy s Hs)). simpl in H.
  destruct (run_insert _ _ _ _ _ _) as [[d' err] lastID] eqn:Hrun.
  rewrite H. simpl. split; [done|].
  destruct err as [msg|].
  - right. split; [done|]. eapply run_insert_err, Hrun.
  - left. exists lastID. split; [done|].
    apply run_insert_ok in Hrun as (t & Ht & _ & -> & _ & Hd' & Hd).
    rewrite Hd', Hd. split; [done|]. apply next_id_fresh.
Qed.

(** C3: a submission whose [rawTransaction] is absent or the empty
    string is answered with the client-input failure (status 400,
    [success: false]) and makes no call on the store: no INSERT is
    issued and the database is left as it was. *)
Theorem C3_submit_empty_or_absent_rejected body e d :
  assoc_get "rawTransaction" body = None \/
  assoc_get "rawTransaction" body = Some (JStr EmptyString) ->
  let o := protect body e d in
  response o = bad_request /\
  http_status (response o) = 400%nat /\
  success_of (response o) = JBool false /\
  db_calls o = [] /\
  db_after o = d.
Proof.
  intros H. simpl.
  rewrite protect_falsy; [done|].
  unfold destructure. by destruct H as [-> | ->].
Qed.



(** C10: the input check is JavaScript truthiness: whatever falsy value
    [rawTransaction] holds (the empty string, [null], [0], [false],
    [NaN], or nothing at all), the answer is the same client-input
    failure with no call on the store, and it is the very outcome of a
    request whose body has no [rawTransaction] field. *)
Theorem C10_falsy_rawTransaction_rejected (raw : JsVal) e d :
  to_boolean raw = false ->
  submit raw e d = mkOutcome bad_request d [] /\
  submit raw e d = protect [] e d /\
  Forall (fun v => to_boolean v = false)
         [JStr EmptyString; JNull; JNum 0; JBool false; JNaN; JUndefined].
Proof.
  intros H. unfold submit.
  rewrite !protect_falsy; [|done|done]. split; [done|]. split; [done|].
  repeat constructor.
Qed.

End ProtectFacts.

(** ** The store over its lifetime *)

Section LifetimeFacts.
Import Store Protect Startup.

Lemma protect_preserves_ok body e d :
  trades_ok (trades d) -> trades_ok (trades (db_after (protect body e d))).
Proof.
  intros Hok.
  destruct (to_boolean (destructure body "rawTransaction")) eqn:Hraw.
  - pose proof (protect_truthy body e d Hraw) as H. simpl in H.
    destruct (run_insert _ _ _ _ _ _) as [[d' err] lastID] eqn:Hrun.
    rewrite H. simpl. destruct err as [msg|].
    + by rewrite (run_insert_err _ _ _ _ _ _ _ _ _ Hrun).
    + apply run_insert_ok in Hrun as (t & Ht & _ & -> & _ & Hd' & Hd).
      rewrite Hd'. rewrite Hd in Hok.
      apply trades_ok_snoc; [done|done|]. apply next_id_fresh.
  - by rewrite protect_falsy.
Qed.

Lemma serve_preserves_ok reqs d :
  trades_ok (trades d) -> trades_ok (trades (serve reqs d)).
Proof.
  revert d. induction reqs as [|[b e] reqs IH]; intros d Hok; simpl; [done|].
  apply IH. by apply protect_preserves_ok.
Qed.

Lemma fresh_ok : trades_ok (trades (db fresh)).
Proof. split; constructor. Qed.

Lemma logged_inj h1 h2 i1 i2 : logged h1 i1 = logged h2 i2 -> h1 = h2 /\ i1 = i2.
Proof. intros H. by injection H as -> ->. Qed.

(** Two successful submissions in a row: two new rows, the second id
    above the first, the first above every id already stored. *)
Lemma submit_twice (s : string) e1 e2 i1 i2 d :
  let o1 := submit (JStr s) e1 d in
  let o2 := submit (JStr s) e2 (db_after o1) in
  response o1 = logged (mockTxHash e1) i1 ->
  response o2 = logged (mockTxHash e2) i2 ->
  i1 < i2 /\ Forall (fun r => id r < i1) (trades d) /\
  trades (db_after o2) =
    trades d ++ [mkRow i1 (JStr s) (mockTxHash e1) "Submitted_Protected" (current_timestamp e1);
                 mkRow i2 (JStr s) (mockTxHash e2) "Submitted_Protected" (current_timestamp e2)].
Proof.
  simpl. intros H1 H2.
  destruct (String.eqb_spec s EmptyString) as [->|Hs]; [discriminate|].
  destruct (submit_cases s e1 d Hs) as [_ [(j1 & Hr1 & Ht1 & Hf1) | (Hr1 & _)]];
    simpl in *; rewrite Hr1 in H1; [|by symmetry in H1; apply logged_not_db_error in H1].
  apply logged_inj in H1 as [_ ->].
  destruct (submit_cases s e2 (db_after (submit (JStr s) e1 d)) Hs)
    as [_ [(j2 & Hr2 & Ht2 & Hf2) | (Hr2 & _)]];
    simpl in *; rewrite Hr2 in H2; [|by symmetry in H2; apply logged_not_db_error in H2].
  apply logged_inj in H2 as [_ ->].
  rewrite Ht1 in Hf2, Ht2. apply Forall_app in Hf2 as [_ Hlast].
  inversion Hlast; subst; simpl in *.
  split; [done|]. split; [done|]. by rewrite Ht2, <- app_assoc.
Qed.

(** C5: in the store reached from a fresh start by any sequence of
    requests, every persisted record has a truthy (for a string:
    non-empty) [raw_tx] and the ids strictly increase in insertion
    order, so no two records share an id; and submitting the same
    [rawTransaction] twice, both times with success, appends two
    records, the second with a larger id, each carrying the relay token
    built from the random draw of its own request. *)
Theorem C5_store_lifetime_invariants reqs :
  let d := serve reqs (db fresh) in
  Forall (fun r => to_boolean (raw_tx r) = true /\ raw_tx r <> JStr EmptyString) (trades d) /\
  StronglySorted Z.lt (id <$> trades d) /\
  NoDup (id <$> trades d) /\
  forall (s : string) e1 e2 i1 i2,
    let o1 := submit (JStr s) e1 d in
    let o2 := submit (JStr s) e2 (db_after o1) in
    response o1 = logged (mockTxHash e1) i1 ->
    response o2 = logged (mockTxHash e2) i2 ->
    i1 < i2 /\ Forall (fun r => id r < i1) (trades d) /\
    trades (db_after o2) =
      trades d ++ [mkRow i1 (JStr s) ("0xsim-log-" +:+ slice 2 10 (random_hex e1))
                         "Submitted_Protected" (current_timestamp e1);
                   mkRow i2 (JStr s) ("0xsim-log-" +:+ slice 2 10 (random_hex e2))
                         "Submitted_Protected" (current_timestamp e2)].
Proof.
  simpl. destruct (serve_preserves_ok reqs (db fresh) fresh_ok) as [Hraw Hsort].
  split; [|split; [done|split]].
  - eapply Forall_impl; [exact Hraw|]. intros r Hr. simpl in Hr. split; [done|].
    intros Heq. rewrite Heq in Hr. discriminate.
  - by apply StronglySorted_lt_NoDup.
  - intros s e1 e2 i1 i2 H1 H2. by apply submit_twice.
Qed.

(** C8: [initDb] on an open database, nothing failing, reports no error
    and leaves the table in place; run again on its own result it
    changes nothing; on a database that already has the table (whatever
    rows it holds) it changes nothing at all; and the same holds when
    the second initialisation is a new process opening the file left by
    the first, with or without [--init-db]. *)
Theorem C8_initDb_idempotent (d : Db) :
  is_open d = true ->
  let r1 := initDb false None d in
  r1.1.2 = None /\
  is_Some (tables r1.1.1 !! TABLE) /\
  initDb false None r1.1.1 = r1 /\
  (is_Some (tables d !! TABLE) -> r1 = (d, None, false)) /\
  forall f1 f2,
    let t1 := tables (initDb f1 None d).1.1 in
    let r2 := initDb f2 None (open_db None t1).1 in
    r2.1.2 = None /\ tables r2.1.1 = t1.
Proof.
  intros Ho.
  destruct (initDb_open false d Ho) as (d1 & Hr & Ho1 & Ht1 & Hsame & _).
  simpl. rewrite Hr. simpl. split; [done|]. split; [done|]. split; [|split].
  - destruct (initDb_open false d1 Ho1) as (d2 & Hr2 & _ & _ & Hsame2 & _).
    rewrite Hr2. by rewrite (Hsame2 Ht1).
  - intros Hd. by rewrite (Hsame Hd).
  - intros f1 f2.
    destruct (initDb_open f1 d Ho) as (d1' & Hr' & _ & Ht1' & _ & _).
    rewrite Hr'. simpl.
    assert (Htab : tables (if f1 then close d1' else d1') = tables d1')
      by (by destruct f1).
    rewrite Htab.
    destruct (initDb_open f2 (mkDb true (tables d1')) eq_refl)
      as (d2 & Hr2 & _ & _ & Hsame2 & _).
    rewrite Hr2. simpl. split; [done|].
    rewrite (Hsame2 Ht1'). by destruct f2.
Qed.

(** Without [--init-db] the server listens whatever happened to the store. *)
Lemma main_listens (e : Startup.Env) :
  init_db_flag e = false -> listening (main e) = true /\ exited (main e) = false.
Proof.
  intros Hf. unfold main. rewrite Hf.
  destruct (open_db _ _) as [d0 ?].
  unfold initDb. destruct (run_create_table _ _ _ _ _). done.
Qed.

(** An INSERT on an open database that lacks the table fails. *)
Lemma run_insert_unusable fault now raw hash st d :
  is_open d = true -> tables d !! TABLE = None ->
  exists msg, run_insert fault now raw hash st d = (d, Some msg, 0).
Proof.
  intros Ho H. unfold run_insert. rewrite Ho. simpl.
  destruct fault; [by eexists|]. rewrite H. by eexists.
Qed.

(** C6 (as the code has it): a store that cannot be opened or
    initialised at start-up is not fatal.  Without [--init-db] the
    server listens and every request to [/api/protect] reaches the
    handler, which issues its INSERT for a truthy [rawTransaction];
    when the table could not be created, that submission is answered
    with the storage failure and the database stays as it was. *)
Theorem C6_store_failure_at_startup_not_fatal (e : Startup.Env) :
  init_db_flag e = false ->
  let p := main e in
  listening p = true /\ exited p = false /\
  (forall body pe,
     post_protect p body pe =
       Some (protect body pe (db p),
             mkProcess (db_after (protect body pe (db p))) true false)) /\
  (forall raw pe, to_boolean raw = true ->
     db_calls (submit raw pe (db p)) =
       [RunInsert raw (mockTxHash pe) "Submitted_Protected"]) /\
  (is_open (db p) = true -> tables (db p) !! TABLE = None ->
   forall raw pe, to_boolean raw = true ->
     let o := submit raw pe (db p) in
     response o = db_error /\ db_after o = db p).
Proof.
  intros Hf. destruct (main_listens e Hf) as [Hl Hx]. simpl.
  assert (Hshape : forall raw pe, to_boolean raw = true ->
            let '(d', err, lastID) :=
              run_insert (engine_fault pe) (current_timestamp pe) raw (mockTxHash pe)
                         "Submitted_Protected" (db (main e)) in
            submit raw pe (db (main e)) =
              mkOutcome (match err with
                         | Some _ => db_error
                         | None => logged (mockTxHash pe) lastID
                         end) d'
                        [RunInsert raw (mockTxHash pe) "Submitted_Protected"]).
  { intros raw pe Hraw. unfold submit.
    pose proof (protect_truthy [("rawTransaction", raw)] pe (db (main e))) as H.
    change (destructure [("rawTransaction", raw)] "rawTransaction") with raw in H.
    exact (H Hraw). }
  split; [done|]. split; [done|]. split; [|split].
  - intros body pe. unfold post_protect. by rewrite Hl, Hx.
  - intros raw pe Hraw. specialize (Hshape raw pe Hraw).
    destruct (run_insert _ _ _ _ _ _) as [[d' err] lastID]. by rewrite Hshape.
  - intros Hopen Hmissing raw pe Hraw. specialize (Hshape raw pe Hraw).
    destruct (run_insert_unusable (engine_fault pe) (current_timestamp pe) raw
                (mockTxHash pe) "Submitted_Protected" (db (main e)) Hopen Hmissing)
      as [msg Hrun].
    rewrite Hrun in Hshape. by rewrite Hshape.
Qed.

End LifetimeFacts.

(** ** The generator *)

Section GeneratorFacts.
Import Generator.

Lemma risk_of_bounds (r : Q) : unit_interval r -> 50 <= risk_of r <= 99.
Proof.
  intros [H0 H1]. unfold risk_of.
  assert (Hlo : 0 <= Qfloor (r * 50)).
  { change 0 with (Qfloor (inject_Z 0)). apply Qfloor_resp_le.
    change (inject_Z 0) with (0 * 50)%Q. apply Qmult_le_compat_r; [done|]. done. }
  assert (Hhi : Qfloor (r * 50) < 50).
  { rewrite Zlt_Qlt. eapply Qle_lt_trans; [apply Qfloor_le|].
    change (inject_Z 50) with (1 * 50)%Q. apply Qmult_lt_compat_r; done. }
  lia.
Qed.

Lemma numeric_part_of_score (k : Z) :
  50 <= k <= 99 -> numeric_part (pretty k +:+ "/100") = pretty k.
Proof.
  intros Hk.
  assert (Hn : exists n : nat, (n < 50)%nat /\ k = 50 + Z.of_nat n).
  { exists (Z.to_nat (k - 50)). lia. }
  destruct Hn as (n & Hn & ->). clear Hk.
  do 50 (destruct n as [|n]; [vm_compute; reflexivity|]). lia.
Qed.

Lemma generate_many_spec (es : list Env) (c : Z) :
  let r := generate_many es c in
  r.2 = c + Z.of_nat (length es) /\
  Generator.id <$> r.1 = (fun k => c + 1 + Z.of_nat k) <$> seq 0 (length es) /\
  Forall (fun ev => c < Generator.id ev) r.1 /\
  StronglySorted Z.lt (Generator.id <$> r.1).
Proof.
  revert c. induction es as [|e es IH]; intros c; simpl.
  - repeat split; [lia | constructor | constructor].
  - destruct (IH (c + 1)) as (Hc & Hids & Hgt & Hsort).
    destruct (generate_many es (c + 1)) as [evs c'] eqn:Hgen. simpl in *.
    split; [lia|]. split; [|split].
    + f_equal; [lia|].
      change (Generator.id <$> evs =
              (fun k => c + 1 + Z.of_nat k) <$> seq 1 (length es)).
      rewrite Hids, <- fmap_S_seq, <- list_fmap_compose.
      apply list_fmap_ext. intros _ k _. simpl. lia.
    + constructor; simpl; [lia|]. eapply Forall_impl; [exact Hgt|]. simpl; lia.
    + constructor; [done|]. by apply Forall_fmap.
Qed.

(** C7: whatever [Math.random] draws in [[0, 1)], the numeric part of
    every produced [riskScore] is the decimal numeral of an integer
    from 50 to 99; and [N] successive calls from counter [c] yield the
    ids [c+1, ..., c+N] of the process-wide counter, strictly
    increasing and pairwise distinct, and leave the counter at [c+N]. *)
Theorem C7_generate_risk_band_and_ids (es : list Env) (c : Z) :
  Forall (fun e => unit_interval (risk_random e)) es ->
  let evs := (generate_many es c).1 in
  length evs = length es /\
  Forall (fun ev => exists k, numeric_part (riskScore ev) = pretty k /\ 50 <= k <= 99) evs /\
  Generator.id <$> evs = (fun k => c + 1 + Z.of_nat k) <$> seq 0 (length es) /\
  StronglySorted Z.lt (Generator.id <$> evs) /\
  NoDup (Generator.id <$> evs) /\
  (generate_many es c).2 = c + Z.of_nat (length es).
Proof.
  intros Hwf. simpl.
  destruct (generate_many_spec es c) as (Hc & Hids & _ & Hsort). simpl in *.
  split; [|split; [|split; [done|split; [done|split; [|done]]]]].
  - rewrite <- (length_fmap Generator.id), Hids, length_fmap. apply length_seq.
  - clear Hc Hids Hsort. revert c.
    induction Hwf as [|e es He Hes IH]; intros c; simpl; [constructor|].
    specialize (IH (c + 1)).
    destruct (generate_many es (c + 1)) as [evs c']. simpl in *.
    constructor; [|done]. simpl.
    exists (risk_of (risk_random e)). pose proof (risk_of_bounds _ He) as Hb.
    split; [by apply numeric_part_of_score | done].
  - by apply StronglySorted_lt_NoDup.
Qed.

End GeneratorFacts.

(** ** The hub *)

Section HubFacts.
Import Hub.

Lemma deliver_status_once m k :
  is_status m = false -> status_once k -> status_once (deliver m k).
Proof.
  intros Hm (rest & Hout & Hrest). unfold deliver.
  destruct (connected k); [|by exists rest].
  exists (rest ++ [m]). simpl. rewrite Hout. split; [done|].
  apply Forall_app; split; [done|]. by constructor.
Qed.

Lemma step_status_once s i :
  Forall status_once (sockets s) -> Forall status_once (sockets (step s i)).
Proof.
  intros H. destruct i as [sid|n|e]; simpl.
  - apply Forall_app; split; [done|]. constructor; [|constructor].
    exists []. by split.
  - apply Forall_alter; [done|]. by intros k _ (rest & Hout & Hrest); exists rest.
  - unfold broadcastAttack.
    destruct (Generator.generateLocalAttack e (attackCounter s)) as [ev c]. simpl.
    unfold io_emit. apply Forall_fmap. eapply Forall_impl; [exact H|].
    intros k Hk. by apply deliver_status_once.
Qed.

Lemma foldl_status_once ins s :
  Forall status_once (sockets s) -> Forall status_once (sockets (foldl step s ins)).
Proof.
  revert s. induction ins as [|i ins IH]; intros s H; simpl; [done|].
  apply IH. by apply step_status_once.
Qed.

(** C9: a new connection gets a socket whose first and only message so
    far is the status message built from the static flag; and after any
    sequence of connections, disconnections and broadcasts every
    socket has received exactly one [STATUS] message, as its first
    message. *)
Theorem C9_one_status_message_per_connection (ins : list Input) :
  (forall sid, sockets (step (run ins) (Connect sid)) =
               sockets (run ins) ++ [mkSocket sid true [STATUS]]) /\
  STATUS = mkEmitted "STATUS" (StatusPayload (status_message PRIVATE_MEMPOOL_ENABLED)) /\
  status_message PRIVATE_MEMPOOL_ENABLED =
    "Connected to MEV-Shield server. Private Mempool Status: Active (private mempool)." /\
  Forall (fun k => head (outbox k) = Some STATUS /\
                   List.filter is_status (outbox k) = [STATUS])
         (sockets (run ins)).
Proof.
  split; [done|]. split; [done|]. split; [done|].
  eapply Forall_impl; [apply foldl_status_once; constructor|].
  intros k (rest & -> & Hrest). split; [done|]. simpl. f_equal.
  induction Hrest as [|m rest Hm _ IH]; simpl; [done|]. by rewrite Hm.
Qed.

End HubFacts.

(** ** The analyzer *)

Section AnalyzerFacts.
Import Analyzer.

(** Without a key, or when the SDK constructor throws an error object,
    [ai] stays [null]. *)
Lemma init_ai_unconfigured construct :
  init_ai None construct = Returned None /\
  init_ai (Some EmptyString) construct = Returned None /\
  forall key e, construct key = Threw e -> has_properties e = true ->
                init_ai (Some key) construct = Returned None.
Proof.
  split; [done|]. split; [done|]. intros key e H He. unfold init_ai.
  destruct (to_boolean (JStr key)); [|done]. rewrite H. by destruct e.
Qed.

(** Not configured: the "unavailable" fallback, whatever the input. *)
Lemma analyze_unconfigured (tradeData : string) :
  geminiRiskAnalyzer None tradeData = Returned UNAVAILABLE /\
  geminiRiskAnalyzer (Some (mkClient None)) tradeData = Returned UNAVAILABLE /\
  geminiRiskAnalyzer (Some (mkClient (Some (mkModels None)))) tradeData = Returned UNAVAILABLE.
Proof. done. Qed.

(** The call throws an error object: the "error" fallback. *)
Lemma analyze_call_throws (tradeData : string) (e : JsVal) :
  has_properties e = true ->
  geminiRiskAnalyzer (Some (client_answering (Threw e))) tradeData = Returned API_ERROR.
Proof. unfold has_properties. by destruct e. Qed.

(** The reply is not JSON: the "error" fallback. *)
Lemma analyze_undecodable (tradeData : string) (r : Response) :
  JSON_parse (default "undefined" (text r)) = None ->
  geminiRiskAnalyzer (Some (client_answering (Returned r))) tradeData = Returned API_ERROR.
Proof.
  intros H. unfold geminiRiskAnalyzer, client_answering, parse_text; simpl.
  by rewrite H.
Qed.

(** The reply is JSON: its value is returned as decoded. *)
Lemma analyze_decoded (tradeData : string) (r : Response) (v : JsVal) :
  JSON_parse (default "undefined" (text r)) = Some v ->
  geminiRiskAnalyzer (Some (client_answering (Returned r))) tradeData = Returned v.
Proof.
  intros H. unfold geminiRiskAnalyzer, client_answering, parse_text; simpl.
  by rewrite H.
Qed.

(** Both fallbacks are well-formed assessments scoring 50. *)
Lemma fallbacks_well_formed :
  Forall (fun v => is_risk_assessment v = true /\
                   (let! s := get_prop v "riskScore" in split_slash_head s)
                     = Returned (JStr "50") /\
                   is_returned (simulate_reply v) = true)
         [UNAVAILABLE; API_ERROR].
Proof. repeat constructor. Qed.

(** C1 (where the code departs from it): with a configured client whose
    reply is the JSON text of an empty array, [geminiRiskAnalyzer]
    returns that array: a value with none of the three fields of a
    RiskAssessment, on which [/api/simulate] throws. *)
Theorem C1_analyze_returns_decoded_non_assessment :
  let ai := Some (client_answering (Returned Scenario.array_reply)) in
  geminiRiskAnalyzer ai Scenario.description = Returned (JArr []) /\
  is_risk_assessment (JArr []) = false /\
  is_returned (simulate_reply (JArr [])) = false.
Proof. vm_compute. done. Qed.

(** C2 (where the code departs from it): a reply that decodes to a value
    lacking one of the three fields is returned as decoded; the error
    fallback is not put in its place. *)
Theorem C2_analyze_returns_malformed_reply (tradeData : string) (r : Response) (v : JsVal) :
  JSON_parse (default "undefined" (text r)) = Some v ->
  is_risk_assessment v = false ->
  geminiRiskAnalyzer (Some (client_answering (Returned r))) tradeData = Returned v /\
  Returned v <> Returned API_ERROR.
Proof.
  intros Hv Hbad. split; [by apply analyze_decoded|].
  intros [= ->]. discriminate.
Qed.

End AnalyzerFacts.

(** ** The theorems at concrete inputs *)

Section Instances.
Import Store Protect Startup.

(** C3 at a body without the field, on the fresh store. *)
Lemma C3_witness_absent_field :
  let o := protect [("memo", JStr "no transaction here")] Scenario.request1 (db fresh) in
  assoc_get "rawTransaction" [("memo", JStr "no transaction here")] = None /\
  response o = bad_request /\ db_calls o = [] /\ db_after o = db fresh.
Proof.
  assert (H : assoc_get "rawTransaction" [("memo", JStr "no transaction here")] = None)
    by reflexivity.
  destruct (C3_submit_empty_or_absent_rejected
              [("memo", JStr "no transaction here")] Scenario.request1 (db fresh)
              (or_introl H)) as (Hr & _ & _ & Hc & Hd).
  repeat split; assumption.
Defined.


(** C5 at two submissions of ["0xdeadbeef"] on the fresh store: ids 1 and 2. *)
Lemma C5_witness_resubmission :
  let o1 := submit (JStr "0xdeadbeef") Scenario.request1 (db fresh) in
  let o2 := submit (JStr "0xdeadbeef") Scenario.request2 (db_after o1) in
  response o1 = logged "0xsim-log-8f3a91c2" 1 /\
  response o2 = logged "0xsim-log-1b2c3d4e" 2 /\
  trades (db_after o2) =
    [mkRow 1 (JStr "0xdeadbeef") "0xsim-log-8f3a91c2" "Submitted_Protected" "2025-01-01 10:00:00";
     mkRow 2 (JStr "0xdeadbeef") "0xsim-log-1b2c3d4e" "Submitted_Protected" "2025-01-01 10:00:05"].
Proof.
  assert (H1 : response (submit (JStr "0xdeadbeef") Scenario.request1 (db fresh)) =
               logged (mockTxHash Scenario.request1) 1) by (vm_compute; reflexivity).
  assert (H2 : response (submit (JStr "0xdeadbeef") Scenario.request2
                           (db_after (submit (JStr "0xdeadbeef") Scenario.request1 (db fresh)))) =
               logged (mockTxHash Scenario.request2) 2) by (vm_compute; reflexivity).
  destruct (C5_store_lifetime_invariants []) as (_ & _ & _ & Hre).
  destruct (Hre "0xdeadbeef" Scenario.request1 Scenario.request2 1 2 H1 H2) as (_ & _ & Ht).
  split; [exact H1|]. split; [exact H2|]. exact Ht.
Defined.

(** C6 as stated fails: the database cannot be opened, and yet the
    server listens, has not exited, and hands a submission to its
    handler, which issues the INSERT. *)
Lemma C6_counterexample_listens_after_failed_open :
  open_fault unavailable <> None /\
  is_open (db (main unavailable)) = false /\
  listening (main unavailable) = true /\
  exited (main unavailable) = false /\
  db_calls (protect [("rawTransaction", JStr "0xdeadbeef")] Scenario.request1
              (db (main unavailable))) =
    [RunInsert (JStr "0xdeadbeef") "0xsim-log-8f3a91c2" "Submitted_Protected"] /\
  ~ (forall body pe, post_protect (main unavailable) body pe = None).
Proof.
  split; [discriminate|]. split; [reflexivity|]. split; [reflexivity|].
  split; [reflexivity|]. split; [reflexivity|].
  intros H. specialize (H [("rawTransaction", JStr "0xdeadbeef")] Scenario.request1).
  vm_compute in H. discriminate.
Qed.

(** C6 as the code has it, at the start whose CREATE TABLE fails. *)
Lemma C6_witness_uninitialised_store :
  init_db_flag uninitialised = false /\
  listening (main uninitialised) = true /\
  response (submit (JStr "0xdeadbeef") Scenario.request1 (db (main uninitialised))) = db_error.
Proof.
  assert (Hf : init_db_flag uninitialised = false) by reflexivity.
  destruct (C6_store_failure_at_startup_not_fatal uninitialised Hf)
    as (Hl & _ & _ & _ & Hbad).
  split; [exact Hf|]. split; [exact Hl|].
  assert (Hopen : is_open (db (main uninitialised)) = true) by reflexivity.
  assert (Hmissing : tables (db (main uninitialised)) !! TABLE = None) by reflexivity.
  assert (Hraw : to_boolean (JStr "0xdeadbeef") = true) by reflexivity.
  exact (proj1 (Hbad Hopen Hmissing (JStr "0xdeadbeef") Scenario.request1 Hraw)).
Defined.

(** C7 at two calls from a counter at 0: scores 99 and 50, ids 1 and 2. *)
Lemma C7_witness_two_calls :
  Forall (fun e => Generator.unit_interval (Generator.risk_random e))
         [Scenario.draw1; Scenario.draw2] /\
  Generator.id <$> (Generator.generate_many [Scenario.draw1; Scenario.draw2] 0).1 = [1; 2].
Proof.
  assert (H : Forall (fun e => Generator.unit_interval (Generator.risk_random e))
                     [Scenario.draw1; Scenario.draw2]).
  { repeat constructor; vm_compute; congruence. }
  split; [exact H|].
  exact (proj1 (proj2 (proj2
    (C7_generate_risk_band_and_ids [Scenario.draw1; Scenario.draw2] 0 H)))).
Defined.

(** C8 at the store left by a first start. *)
Lemma C8_witness_second_init :
  is_open (db fresh) = true /\
  initDb false None (db fresh) = (db fresh, None, false).
Proof.
  assert (Ho : is_open (db fresh) = true) by reflexivity.
  destruct (C8_initDb_idempotent (db fresh) Ho) as (_ & _ & _ & Hsame & _).
  split; [exact Ho|]. apply Hsame. vm_compute. eexists. reflexivity.
Defined.

(** C10 at [rawTransaction: 0]. *)
Lemma C10_witness_zero :
  to_boolean (JNum 0) = false /\
  submit (JNum 0) Scenario.request1 (db fresh) = protect [] Scenario.request1 (db fresh).
Proof.
  assert (H : to_boolean (JNum 0) = false) by reflexivity.
  split; [exact H|].
  exact (proj1 (proj2 (C10_falsy_rawTransaction_rejected
                         (JNum 0) Scenario.request1 (db fresh) H))).
Defined.

(** C2 at the reply holding a riskScore only. *)
Lemma C2_witness_partial_reply :
  Analyzer.is_risk_assessment (JObj [("riskScore", JStr "10/100")]) = false /\
  Analyzer.geminiRiskAnalyzer
    (Some (Analyzer.client_answering (Returned Scenario.partial_reply)))
    Scenario.description = Returned (JObj [("riskScore", JStr "10/100")]).
Proof.
  assert (Hv : JSON_parse (default "undefined" (Analyzer.text Scenario.partial_reply)) =
               Some (JObj [("riskScore", JStr "10/100")])) by (vm_compute; reflexivity).
  assert (Hbad : Analyzer.is_risk_assessment (JObj [("riskScore", JStr "10/100")]) = false)
    by reflexivity.
  split; [exact Hbad|].
  exact (proj1 (C2_analyze_returns_malformed_reply
                  Scenario.description Scenario.partial_reply _ Hv Hbad)).
Defined.

End Instances.

(** * Further properties of the server and of the client *)

(** ** The generator, field by field *)

Section GeneratorFields.
Import Generator.

Lemma floor_of_scaled_unit (r : Q) (n : Z) :
  0 < n -> unit_interval r -> 0 <= Qfloor (r * inject_Z n) < n.
Proof.
  intros Hn [H0 H1].
  assert (Hq : (0 < inject_Z n)%Q) by (unfold Qlt; simpl; lia).
  split.
  - change 0 with (Qfloor (inject_Z 0)). apply Qfloor_resp_le.
    change (inject_Z 0) with 0%Q. apply Qmult_le_0_compat; [done|]. by apply Qlt_le_weak.
  - rewrite Zlt_Qlt. eapply Qle_lt_trans; [apply Qfloor_le|].
    apply Qlt_le_trans with (1 * inject_Z n)%Q; [by apply Qmult_lt_compat_r|].
    rewrite Qmult_1_l. apply Qle_refl.
Qed.

Lemma generate_method_cases (e : Env) (c : Z) :
  unit_interval (method_random e) ->
  let ev := (generateLocalAttack e c).1 in
  exists m, m ∈ MEV_ATTACK_TYPES /\ method ev = JStr m /\
            rationale ev =
              "Locally simulated. Attacker is monitoring " +:+ m +:+ " opportunities.".
Proof.
  intros Hr ev. subst ev. unfold generateLocalAttack. cbn [fst method rationale].
  pose proof (floor_of_scaled_unit (method_random e) 4 ltac:(lia) Hr) as Hk.
  change (inject_Z (Z.of_nat (length MEV_ATTACK_TYPES))) with (inject_Z 4).
  set (k := Qfloor (method_random e * inject_Z 4)) in *.
  assert (Hcases : k = 0 \/ k = 1 \/ k = 2 \/ k = 3) by lia.
  destruct Hcases as [-> | [-> | [-> | ->]]]; eexists;
    (split; [|split; reflexivity]); apply list_elem_of_In; simpl; tauto.
Qed.

(** X1: the category of a generated event is one of the four attack types,
    never [undefined], and the rationale names it. *)
Theorem generate_method_is_a_category (e : Env) (c : Z) :
  unit_interval (method_random e) ->
  let ev := (generateLocalAttack e c).1 in
  exists m, m ∈ MEV_ATTACK_TYPES /\ method ev = JStr m /\
            rationale ev =
              "Locally simulated. Attacker is monitoring " +:+ m +:+ " opportunities.".
Proof. exact (generate_method_cases e c). Qed.

Lemma generate_method_witness :
  unit_interval (method_random Scenario.draw1) /\
  exists m, m ∈ MEV_ATTACK_TYPES /\
            method (generateLocalAttack Scenario.draw1 0).1 = JStr m.
Proof.
  assert (H : unit_interval (method_random Scenario.draw1))
    by (split; vm_compute; congruence).
  split; [exact H|].
  destruct (generate_method_is_a_category Scenario.draw1 0 H) as (m & Hin & Hm & _).
  exists m. split; [exact Hin | exact Hm].
Defined.

Lemma string_app_assoc (s t u : string) : (s +:+ t) +:+ u = s +:+ (t +:+ u).
Proof.
  induction s as [|ch s IH]; [done|].
  change (String ch ((s +:+ t) +:+ u) = String ch (s +:+ (t +:+ u))).
  by rewrite IH.
Qed.

Lemma substring_length (a m : nat) (s : string) :
  String.length (String.substring a m s) = (m `min` (String.length s - a))%nat.
Proof.
  revert a m. induction s as [|ch s IH]; intros a m.
  - destruct a, m; simpl; lia.
  - destruct a as [|a].
    + destruct m as [|m]; simpl; [done|]. rewrite (IH 0%nat m). lia.
    + simpl. rewrite IH. lia.
Qed.

Lemma substring_0_app (n : nat) (s t : string) :
  (n <= String.length s)%nat ->
  String.substring 0 n (s +:+ t) = String.substring 0 n s.
Proof.
  revert n. induction s as [|ch s IH]; intros n Hn; simpl in *.
  - assert (n = 0%nat) as -> by lia. by destruct t.
  - destruct n as [|n]; [done|]. simpl. f_equal. apply IH. lia.
Qed.

Lemma substring_0_substring (a k m : nat) (s : string) :
  (k <= m)%nat ->
  String.substring 0 k (String.substring a m s) = String.substring a k s.
Proof.
  revert a k m. induction s as [|ch s IH]; intros a k m Hk.
  - destruct a, m, k; simpl; try done; lia.
  - destruct a as [|a].
    + destruct m as [|m]; [assert (k = 0%nat) as -> by lia; done|].
      destruct k as [|k]; [done|]. simpl. f_equal. apply (IH 0%nat). lia.
    + simpl. by apply IH.
Qed.

(** X2: the [transaction] of a generated event is ["0xTx"], at most six
    more characters and ["..."]; when [Math.random().toString(16)] has
    at least eight characters, those six are its first six hex digits,
    so nothing of [Date.now()] is left in it. *)
Theorem generate_transaction_shape (e : Env) (c : Z) :
  let ev := (generateLocalAttack e c).1 in
  exists shown,
    transaction ev = "0xTx" +:+ shown +:+ "..." /\
    (String.length shown <= 6)%nat /\
    ((8 <= String.length (tx_random_hex e))%nat -> shown = slice 2 8 (tx_random_hex e)).
Proof.
  intros ev. subst ev. unfold generateLocalAttack. cbn [fst transaction].
  exists (String.substring 0 6
            (slice 2 10 (tx_random_hex e) +:+ slice_last 4 (pretty (now_ms e)))).
  split; [reflexivity|]. split.
  - rewrite substring_length. lia.
  - intros Hlen. unfold slice.
    change (10 - 2)%nat with 8%nat. change (8 - 2)%nat with 6%nat.
    rewrite substring_0_app by (rewrite substring_length; lia).
    apply substring_0_substring. lia.
Qed.

Lemma generate_transaction_witness :
  (8 <= String.length (tx_random_hex Scenario.draw1))%nat /\
  transaction (generateLocalAttack Scenario.draw1 0).1 = "0xTx8f3a91...".
Proof.
  assert (H : (8 <= String.length (tx_random_hex Scenario.draw1))%nat)
    by (vm_compute; lia).
  split; [exact H|].
  destruct (generate_transaction_shape Scenario.draw1 0) as (shown & Ht & _ & Hs).
  rewrite Ht, (Hs H). reflexivity.
Defined.

Lemma pad4_length (b : Z) :
  0 <= b < 10000 -> String.length (pad4 (pretty b)) = 4%nat.
Proof.
  intros Hb.
  assert (Hall : forallb (fun n => (String.length (pad4 (pretty (Z.of_nat n))) =? 4)%nat)
                         (seq 0 (Z.to_nat 10000)) = true) by (vm_compute; reflexivity).
  rewrite forallb_forall in Hall.
  specialize (Hall (Z.to_nat b)). rewrite Z2Nat.id in Hall by lia.
  apply Nat.eqb_eq, Hall, in_seq. lia.
Qed.

(** X3: the [value] of a generated event is an amount from 1.0000 to
    16.0000 ETH written with exactly four decimals. *)
Theorem generate_value_range (e : Env) (c : Z) :
  unit_interval (value_random e) ->
  let ev := (generateLocalAttack e c).1 in
  exists whole frac,
    value ev = pretty whole +:+ "." +:+ frac +:+ " ETH" /\
    String.length frac = 4%nat /\
    1 <= whole <= 16 /\
    exists n, 10000 <= n <= 160000 /\ whole = n / 10000 /\ frac = pad4 (pretty (n mod 10000)).
Proof.
  intros [H0 H1] ev. subst ev. unfold generateLocalAttack. cbn [fst value].
  set (x := (value_random e * 15 + 1)%Q).
  assert (Hx1 : (1 <= x)%Q) by (unfold x; lra).
  assert (Hx16 : (x < 16)%Q) by (unfold x; lra).
  unfold toFixed4.
  assert (Hsign : Qle_bool 0 x = true) by (apply Qle_bool_iff; lra).
  rewrite Hsign.
  assert (Habs : Qfloor (Qabs x * 10000 + (1 # 2)) = Qfloor (x * 10000 + (1 # 2))).
  { apply Qfloor_comp. rewrite Qabs_pos by lra. reflexivity. }
  rewrite Habs.
  set (n := Qfloor (x * 10000 + (1 # 2))).
  assert (Hlo : 10000 <= n).
  { change 10000 with (Qfloor (inject_Z 10000)). apply Qfloor_resp_le.
    change (inject_Z 10000) with 10000%Q. lra. }
  assert (Hhi : n < 160001).
  { rewrite Zlt_Qlt. eapply Qle_lt_trans; [apply Qfloor_le|].
    change (inject_Z 160001) with 160001%Q. lra. }
  exists (n / 10000), (pad4 (pretty (n mod 10000))).
  split; [by rewrite !string_app_assoc|]. split.
  - apply pad4_length. apply Z.mod_pos_bound. lia.
  - split.
    + split; [apply Z.div_le_lower_bound; lia | apply Z.div_le_upper_bound; lia].
    + exists n. repeat split; lia.
Qed.

Lemma generate_value_witness :
  unit_interval (value_random Scenario.draw1) /\
  exists whole frac,
    value (generateLocalAttack Scenario.draw1 0).1 = pretty whole +:+ "." +:+ frac +:+ " ETH" /\
    1 <= whole <= 16.
Proof.
  assert (H : unit_interval (value_random Scenario.draw1))
    by (split; vm_compute; congruence).
  split; [exact H|].
  destruct (generate_value_range Scenario.draw1 0 H) as (w & f & Hv & _ & Hw & _).
  exists w, f. split; [exact Hv | exact Hw].
Defined.

End GeneratorFields.

(** ** Runs of the hub *)

Section HubRuns.
Import Hub Trace.

Lemma generate_counter e c : (Generator.generateLocalAttack e c).2 = c + 1.
Proof. reflexivity. Qed.

Lemma generate_id e c : Generator.id (Generator.generateLocalAttack e c).1 = c + 1.
Proof. reflexivity. Qed.

Lemma broadcast_sockets e s :
  sockets (broadcastAttack e s) = deliver (attack_message e (attackCounter s)) <$> sockets s.
Proof. reflexivity. Qed.

Lemma broadcast_counter e s : attackCounter (broadcastAttack e s) = attackCounter s + 1.
Proof. reflexivity. Qed.

Lemma run_app ins1 ins2 : run (ins1 ++ ins2) = foldl step (run ins1) ins2.
Proof. unfold run. apply foldl_app. Qed.

Lemma attack_ids_snoc out e c :
  attack_ids (out ++ [attack_message e c]) = attack_ids out ++ [c + 1].
Proof. unfold attack_ids. by rewrite omap_app. Qed.

Lemma foldl_counts ins s :
  attackCounter (foldl step s ins) = attackCounter s + Z.of_nat (triggers ins) /\
  length (sockets (foldl step s ins)) = (length (sockets s) + connections ins)%nat.
Proof.
  revert s. induction ins as [|i ins IH]; intros s; simpl; [split; lia|].
  destruct (IH (step s i)) as [Hc Hl]. rewrite Hc, Hl.
  destruct i as [sid|n|e]; cbn [step triggers connections].
  - unfold on_connection; simpl. rewrite length_app. simpl. split; lia.
  - unfold on_disconnect; simpl. rewrite length_alter. split; lia.
  - rewrite broadcast_sockets, broadcast_counter, length_fmap. split; lia.
Qed.

Lemma hub_counts_aux (ins : list Input) :
  attackCounter (run ins) = Z.of_nat (triggers ins) /\
  length (sockets (run ins)) = connections ins.
Proof. destruct (foldl_counts ins initial) as [Hc Hl]. split; [exact Hc | exact Hl]. Qed.

(** X4: the counter counts the triggers, whatever connects or
    disconnects in between: after any run it is the number of triggers
    so far, and the next event generated gets that number plus one as
    its id. *)
Theorem hub_counter_counts_triggers (ins : list Input) (e : Generator.Env) :
  attackCounter (run ins) = Z.of_nat (triggers ins) /\
  Generator.id (Generator.generateLocalAttack e (attackCounter (run ins))).1 =
    Z.of_nat (triggers ins) + 1 /\
  attackCounter (run (ins ++ [TriggerAttack e])) = Z.of_nat (triggers ins) + 1.
Proof.
  destruct (hub_counts_aux ins) as [Hc _].
  split; [exact Hc|]. split; [rewrite generate_id; lia|].
  rewrite run_app. cbn [foldl step]. rewrite broadcast_counter. lia.
Qed.

Lemma step_ids_between lo s i :
  lo <= attackCounter s ->
  Forall (ids_between lo (attackCounter s)) (sockets s) ->
  lo <= attackCounter (step s i) /\
  Forall (ids_between lo (attackCounter (step s i))) (sockets (step s i)).
Proof.
  intros Hlo H. destruct i as [sid|n|e]; cbn [step].
  - unfold on_connection; simpl. split; [done|]. apply Forall_app; split; [done|].
    constructor; [|constructor]. split; constructor.
  - unfold on_disconnect; simpl. split; [done|].
    apply Forall_alter; [done|]. by intros k _ Hk.
  - rewrite broadcast_sockets, broadcast_counter. split; [lia|].
    apply Forall_fmap. eapply Forall_impl; [exact H|].
    intros k [Hsort Hbound].
    change (ids_between lo (attackCounter s + 1)
              (deliver (attack_message e (attackCounter s)) k)).
    unfold deliver. destruct (connected k).
    + unfold ids_between. cbn [outbox]. rewrite attack_ids_snoc. split.
      * apply StronglySorted_snoc; [done|].
        eapply Forall_impl; [exact Hbound|]. simpl; lia.
      * apply Forall_app; split.
        -- eapply Forall_impl; [exact Hbound|]. simpl; lia.
        -- constructor; [lia|constructor].
    + split; [done|]. eapply Forall_impl; [exact Hbound|]. simpl; lia.
Qed.

Lemma foldl_ids_between lo ins s :
  lo <= attackCounter s ->
  Forall (ids_between lo (attackCounter s)) (sockets s) ->
  Forall (ids_between lo (attackCounter (foldl step s ins))) (sockets (foldl step s ins)).
Proof.
  revert s. induction ins as [|i ins IH]; intros s Hlo H; simpl; [done|].
  destruct (step_ids_between lo s i Hlo H) as [Hlo' H']. by apply IH.
Qed.

(** X5: within every session the attack events arrive in emission order:
    the ids in an outbox increase strictly, start at 1 or later and
    never exceed the counter. *)
Theorem hub_outbox_keeps_emission_order (ins : list Input) :
  Forall (fun k => StronglySorted Z.lt (attack_ids (outbox k)) /\
                   NoDup (attack_ids (outbox k)) /\
                   Forall (fun j => 1 <= j <= Z.of_nat (triggers ins)) (attack_ids (outbox k)))
         (sockets (run ins)).
Proof.
  pose proof (foldl_ids_between 0 ins initial ltac:(simpl; lia) ltac:(constructor)) as H.
  destruct (hub_counts_aux ins) as [Hc _].
  eapply Forall_impl; [exact H|]. intros k [Hsort Hb].
  split; [done|]. split; [by apply StronglySorted_lt_NoDup|].
  eapply Forall_impl; [exact Hb|]. simpl. intros j Hj. fold (run ins) in Hj. lia.
Qed.

Lemma step_socket_grows s inp i k :
  sockets s !! i = Some k ->
  exists k', sockets (step s inp) !! i = Some k' /\
             socket_id k' = socket_id k /\
             outbox k `prefix_of` outbox k' /\
             (connected k = false -> k' = k).
Proof.
  intros Hk. destruct inp as [sid|n|e]; cbn [step].
  - exists k. unfold on_connection; simpl.
    split; [by apply lookup_app_l_Some|]. done.
  - unfold on_disconnect; simpl. destruct (decide (n = i)) as [->|Hne].
    + eexists. rewrite list_lookup_alter_eq, Hk. simpl. split; [done|].
      split; [done|]. split; [done|]. intros Hc. destruct k; simpl in *. by subst.
    + exists k. rewrite list_lookup_alter_ne by done. done.
  - rewrite broadcast_sockets. eexists. rewrite list_lookup_fmap, Hk. simpl.
    split; [done|]. unfold deliver. destruct (connected k); simpl.
    + split; [done|]. split; [by eexists | done].
    + done.
Qed.

Lemma foldl_socket_grows ins s i k :
  sockets s !! i = Some k ->
  exists k', sockets (foldl step s ins) !! i = Some k' /\
             socket_id k' = socket_id k /\
             outbox k `prefix_of` outbox k' /\
             (connected k = false -> k' = k).
Proof.
  revert s k. induction ins as [|inp ins IH]; intros s k Hk; simpl.
  - exists k. done.
  - destruct (step_socket_grows s inp i k Hk) as (k1 & Hk1 & Hid1 & Hpre1 & Hoff1).
    destruct (IH _ _ Hk1) as (k2 & Hk2 & Hid2 & Hpre2 & Hoff2).
    exists k2. split; [done|]. split; [congruence|]. split; [by etrans|].
    intros Hc. specialize (Hoff1 Hc). subst k1. by apply Hoff2.
Qed.

(** X6: a socket is never removed, what it was sent is never retracted or
    reordered (its outbox only grows at the end), and once it is
    disconnected nothing is sent to it any more. *)
Theorem hub_outbox_only_grows (ins1 ins2 : list Input) (i : nat) (k : Socket) :
  sockets (run ins1) !! i = Some k ->
  exists k', sockets (run (ins1 ++ ins2)) !! i = Some k' /\
             socket_id k' = socket_id k /\
             outbox k `prefix_of` outbox k' /\
             (connected k = false -> k' = k).
Proof. intros Hk. rewrite run_app. by apply foldl_socket_grows. Qed.

Lemma hub_outbox_only_grows_witness :
  sockets (run [Connect "a"; Disconnect 0]) !! 0%nat = Some (mkSocket "a" false [STATUS]) /\
  sockets (run ([Connect "a"; Disconnect 0] ++ [TriggerAttack Scenario.draw1])) !! 0%nat =
    Some (mkSocket "a" false [STATUS]).
Proof.
  assert (H : sockets (run [Connect "a"; Disconnect 0]) !! 0%nat =
              Some (mkSocket "a" false [STATUS])) by reflexivity.
  split; [exact H|].
  destruct (hub_outbox_only_grows [Connect "a"; Disconnect 0]
              [TriggerAttack Scenario.draw1] 0 _ H) as (k' & Hk' & _ & _ & Hoff).
  rewrite Hk'. f_equal. apply Hoff. reflexivity.
Defined.

Lemma foldl_late_joiner ins s i sid c0 :
  (exists k, sockets s !! i = Some k /\ socket_id k = sid /\
             Forall (fun j => c0 < j) (attack_ids (outbox k))) ->
  c0 <= attackCounter s ->
  exists k, sockets (foldl step s ins) !! i = Some k /\ socket_id k = sid /\
            Forall (fun j => c0 < j) (attack_ids (outbox k)).
Proof.
  revert s. induction ins as [|inp ins IH]; intros s H Hc; simpl; [done|].
  apply IH.
  - destruct H as (k & Hk & Hid & Hids). destruct inp as [sid'|n|e]; cbn [step].
    + exists k. unfold on_connection; simpl. split; [by apply lookup_app_l_Some|]. done.
    + unfold on_disconnect; simpl. destruct (decide (n = i)) as [->|Hne].
      * eexists. rewrite list_lookup_alter_eq, Hk. simpl. done.
      * exists k. rewrite list_lookup_alter_ne by done. done.
    + rewrite broadcast_sockets. eexists. rewrite list_lookup_fmap, Hk. simpl.
      split; [done|]. unfold deliver. destruct (connected k); simpl; [|done].
      split; [done|]. rewrite attack_ids_snoc. apply Forall_app; split; [done|].
      constructor; [lia|constructor].
  - destruct inp as [sid'|n|e]; cbn [step].
    + unfold on_connection; simpl; lia.
    + unfold on_disconnect; simpl; lia.
    + rewrite broadcast_counter. lia.
Qed.

(** X7: a session receives only what is emitted after it connected: the
    socket created by a connection holds no attack event with an id up
    to the counter at that moment, whatever happens afterwards. *)
Theorem hub_late_joiner_misses_earlier_events (ins1 ins2 : list Input) (sid : string) :
  exists k,
    sockets (run (ins1 ++ Connect sid :: ins2)) !! length (sockets (run ins1)) = Some k /\
    socket_id k = sid /\
    Forall (fun j => Z.of_nat (triggers ins1) < j) (attack_ids (outbox k)).
Proof.
  rewrite run_app. simpl.
  destruct (hub_counts_aux ins1) as [Hc _]. rewrite <- Hc.
  apply foldl_late_joiner.
  - eexists. unfold on_connection; simpl. split.
    + rewrite lookup_app_r by lia. by rewrite Nat.sub_diag.
    + split; [done|]. constructor.
  - unfold on_connection; simpl. lia.
Qed.

(** X8: [POST /api/trigger-attack] always answers success; the event it
    broadcasts carries the number of triggers so far plus one, goes to
    the end of the outbox of every connected socket and leaves a
    disconnected socket as it was. *)
Theorem trigger_attack_reaches_connected_sockets
    (ins : list Input) (e : Generator.Env) (i : nat) (k : Socket) :
  sockets (run ins) !! i = Some k ->
  let r := Routes.trigger_attack e (run ins) in
  destructure r.1 "success" = JBool true /\
  r.2 = run (ins ++ [TriggerAttack e]) /\
  attack_ids [attack_message e (attackCounter (run ins))] = [Z.of_nat (triggers ins) + 1] /\
  exists k', sockets r.2 !! i = Some k' /\
    (connected k = true ->
     k' = mkSocket (socket_id k) true
            (outbox k ++ [attack_message e (attackCounter (run ins))])) /\
    (connected k = false -> k' = k).
Proof.
  intros Hk. cbn [Routes.trigger_attack fst snd].
  destruct (hub_counts_aux ins) as [Hc _].
  split; [reflexivity|]. split; [by rewrite run_app|]. split.
  - unfold attack_ids. simpl. rewrite Hc. reflexivity.
  - rewrite broadcast_sockets. eexists. rewrite list_lookup_fmap, Hk. simpl.
    split; [done|]. unfold deliver. split; intros Hcon; by rewrite Hcon.
Qed.

Lemma trigger_attack_witness :
  sockets (run [Connect "a"]) !! 0%nat = Some (mkSocket "a" true [STATUS]) /\
  attack_ids (outbox (default (mkSocket "a" true [])
    (sockets (Routes.trigger_attack Scenario.draw1 (run [Connect "a"])).2 !! 0%nat))) = [1].
Proof.
  assert (H : sockets (run [Connect "a"]) !! 0%nat = Some (mkSocket "a" true [STATUS]))
    by reflexivity.
  split; [exact H|].
  destruct (trigger_attack_reaches_connected_sockets [Connect "a"] Scenario.draw1 0 _ H)
    as (_ & _ & _ & k' & Hk' & Hon & _).
  rewrite Hk'. simpl. rewrite (Hon eq_refl). reflexivity.
Defined.

Lemma step_outbox_of s inp :
  Forall (fun k => exists evs, outbox_of evs k) (sockets s) ->
  Forall (fun k => exists evs, outbox_of evs k) (sockets (step s inp)).
Proof.
  intros H. destruct inp as [sid|n|e]; cbn [step].
  - unfold on_connection; simpl. apply Forall_app; split; [done|].
    constructor; [|constructor]. by exists [].
  - unfold on_disconnect; simpl. apply Forall_alter; [done|].
    by intros k _ [evs Hk]; exists evs.
  - rewrite broadcast_sockets. apply Forall_fmap. eapply Forall_impl; [exact H|].
    intros k [evs Hk].
    change (exists evs', outbox_of evs' (deliver (attack_message e (attackCounter s)) k)).
    unfold deliver. destruct (connected k); [|by exists evs].
    exists (evs ++ [(Generator.generateLocalAttack e (attackCounter s)).1]).
    unfold outbox_of in *. simpl. rewrite Hk, fmap_app. reflexivity.
Qed.

Lemma foldl_outbox_of ins s :
  Forall (fun k => exists evs, outbox_of evs k) (sockets s) ->
  Forall (fun k => exists evs, outbox_of evs k) (sockets (foldl step s ins)).
Proof.
  revert s. induction ins as [|inp ins IH]; intros s H; simpl; [done|].
  apply IH. by apply step_outbox_of.
Qed.

Lemma attack_ids_new_attack evs :
  attack_ids (STATUS :: (new_attack <$> evs)) = Generator.id <$> evs.
Proof.
  induction evs as [|ev evs IH]; [done|].
  change (Generator.id ev :: attack_ids (STATUS :: (new_attack <$> evs)) =
          Generator.id ev :: (Generator.id <$> evs)).
  by rewrite IH.
Qed.

End HubRuns.

(** ** The client's live feed *)

Section ClientFeed.
Import Hub Trace Client.

Lemma take_app_take {A} (n k : nat) (l m : list A) :
  (n <= k)%nat -> take n (l ++ take k m) = take n (l ++ m).
Proof.
  revert n. induction l as [|x l IH]; intros n Hn; simpl.
  - rewrite take_take. f_equal. lia.
  - destruct n as [|n]; simpl; [done|]. f_equal. apply IH. lia.
Qed.

Lemma push_all {A} (attacks prev : list A) :
  foldl (fun acc a => push_attack a acc) (take 10 prev) attacks =
  take 10 (reverse attacks ++ prev).
Proof.
  revert prev. induction attacks as [|a attacks IH]; intros prev; [done|].
  cbn [foldl]. unfold push_attack at 2.
  rewrite (IH (a :: take 10 prev)), reverse_cons, <- app_assoc.
  rewrite (cons_middle a (reverse attacks) (take 10 prev)), app_assoc.
  rewrite take_app_take by lia. by rewrite <- app_assoc.
Qed.

(** X9: the live feed holds the ten most recent attacks received, newest
    first, and never more than ten. *)
Theorem client_feed_keeps_last_ten {A} (attacks : list A) :
  let feed := foldl (fun acc a => push_attack a acc) [] attacks in
  feed = take 10 (reverse attacks) /\
  (length feed <= 10)%nat /\
  (forall a, head (foldl (fun acc a => push_attack a acc) [] (attacks ++ [a])) = Some a).
Proof.
  simpl. pose proof (push_all attacks []) as H. rewrite app_nil_r in H.
  change (take 10 []) with (@nil A) in H. rewrite H. split; [done|]. split.
  - rewrite length_take. lia.
  - intros a. pose proof (push_all (attacks ++ [a]) []) as Ha.
    change (take 10 []) with (@nil A) in Ha. rewrite Ha, reverse_snoc. reflexivity.
Qed.

Lemma session_of_outbox (evs : list Generator.AttackEvent) :
  session (STATUS :: (new_attack <$> evs)) =
  mkFeed (JStr (status_message PRIVATE_MEMPOOL_ENABLED))
         (AttackPayload <$> take 10 (reverse evs)).
Proof.
  unfold session. cbn [foldl].
  change (receive (on_connect initial) STATUS)
    with (mkFeed (JStr (status_message PRIVATE_MEMPOOL_ENABLED)) (take 10 [])).
  rewrite fmap_take, fmap_reverse.
  rewrite <- (app_nil_r (reverse (AttackPayload <$> evs))), <- push_all.
  generalize (take 10 (@nil Payload)). induction evs as [|ev evs IH]; intros acc.
  - done.
  - rewrite !fmap_cons. cbn [foldl]. rewrite <- (IH (push_attack (AttackPayload ev) acc)).
    reflexivity.
Qed.

Lemma StronglySorted_reverse {A} (R : A -> A -> Prop) (l : list A) :
  StronglySorted R l -> StronglySorted (flip R) (reverse l).
Proof.
  induction 1 as [|x l Hl IH Hx]; [constructor|].
  rewrite reverse_cons. apply StronglySorted_snoc; [done|].
  apply Forall_reverse. exact Hx.
Qed.

Lemma StronglySorted_take {A} (R : A -> A -> Prop) (n : nat) (l : list A) :
  StronglySorted R l -> StronglySorted R (take n l).
Proof.
  intros H. revert n. induction H as [|x l Hl IH Hx]; intros n.
  - destruct n; constructor.
  - destruct n as [|n]; simpl; [constructor|].
    constructor; [apply IH|]. apply Forall_take. exact Hx.
Qed.

(** X10: after any run of the server, the client of a socket that is
    still connected shows the server's status line, and the client of
    a disconnected one the reconnect notice; either way its feed is,
    newest first, the last ten attack events that socket was sent,
    with ids strictly decreasing down the list, so the React keys are
    distinct. *)
Theorem client_view_of_any_socket (ins : list Input) :
  Forall (fun k =>
            exists evs,
              outbox k = STATUS :: (new_attack <$> evs) /\
              status (view k) =
                (if connected k
                 then JStr "Connected to MEV-Shield server. Private Mempool Status: Active (private mempool)."
                 else JStr "Disconnected. Attempting reconnect...") /\
              liveAttacks (view k) = AttackPayload <$> take 10 (reverse evs) /\
              StronglySorted (flip Z.lt) (Generator.id <$> take 10 (reverse evs)) /\
              NoDup (Generator.id <$> take 10 (reverse evs)))
         (sockets (run ins)).
Proof.
  pose proof (foldl_outbox_of ins Hub.initial ltac:(constructor)) as Hshape.
  pose proof (foldl_ids_between 0 ins Hub.initial ltac:(simpl; lia) ltac:(constructor)) as Hids.
  fold (run ins) in Hshape, Hids.
  pose proof (proj2 (Forall_and _ _) (conj Hshape Hids)) as H. clear Hshape Hids.
  eapply Forall_impl; [exact H|]. clear H. intros k [[evs Hk] [Hsort _]].
  exists evs. unfold outbox_of in Hk. rewrite Hk, attack_ids_new_attack in Hsort.
  unfold view. rewrite Hk, session_of_outbox.
  split; [done|]. split; [by destruct (connected k)|].
  split; [by destruct (connected k)|].
  assert (Hdesc : StronglySorted (flip Z.lt) (Generator.id <$> take 10 (reverse evs))).
  { rewrite fmap_take, fmap_reverse.
    by apply StronglySorted_take, StronglySorted_reverse. }
  split; [exact Hdesc|].
  clear -Hdesc. induction Hdesc as [|x l Hl IH Hx]; constructor; [|done].
  intros Hin. rewrite Forall_forall in Hx. specialize (Hx x Hin). unfold flip in Hx. lia.
Qed.

Lemma includes_attack_cases :
  Forall (fun m => Text.includes "Attack" m =
            bool_decide (m = "Sandwich Attack" \/ m = "Liquidation Attack"))
         Generator.MEV_ATTACK_TYPES.
Proof. repeat constructor. Qed.

(** X11: every generated event renders as a feed item without throwing; it
    is marked high-risk exactly for the two categories whose name
    contains "Attack". *)
Theorem client_renders_generated_attack (e : Generator.Env) (c : Z) :
  Generator.unit_interval (Generator.method_random e) ->
  let ev := (Generator.generateLocalAttack e c).1 in
  exists m,
    render_attack (AttackPayload ev) =
      Returned (mkFeedItem (c + 1)
                  (if bool_decide (m = "Sandwich Attack" \/ m = "Liquidation Attack")
                   then "risk-high" else "risk-low")
                  m (Generator.value ev) (Generator.transaction ev)
                  (Generator.riskScore ev)) /\
    m ∈ Generator.MEV_ATTACK_TYPES.
Proof.
  intros Hr ev. destruct (generate_method_cases e c Hr) as (m & Hin & Hm & _).
  fold ev in Hm. exists m. split; [|done].
  unfold render_attack. rewrite Hm.
  pose proof includes_attack_cases as Hall. rewrite Forall_forall in Hall.
  rewrite (Hall m Hin). reflexivity.
Qed.

Lemma client_renders_witness :
  Generator.unit_interval (Generator.method_random Scenario.draw2) /\
  exists m, m ∈ Generator.MEV_ATTACK_TYPES /\
    is_returned (render_attack (AttackPayload (Generator.generateLocalAttack Scenario.draw2 0).1))
      = true.
Proof.
  assert (H : Generator.unit_interval (Generator.method_random Scenario.draw2))
    by (split; vm_compute; congruence).
  split; [exact H|].
  destruct (client_renders_generated_attack Scenario.draw2 0 H) as (m & Hr & Hin).
  exists m. split; [exact Hin|]. rewrite Hr. reflexivity.
Defined.

End ClientFeed.

(** ** The store under any sequence of requests *)

Section StoreRuns.
Import Store Protect Startup StoreTrace.

Lemma string_length_app (s t : string) :
  String.length (s +:+ t) = (String.length s + String.length t)%nat.
Proof.
  induction s as [|ch s IH]; [done|].
  change (S (String.length (s +:+ t)) = S (String.length s + String.length t)).
  by rewrite IH.
Qed.

Lemma mockTxHash_length e : (10 <= String.length (mockTxHash e) <= 18)%nat.
Proof.
  unfold mockTxHash, slice. rewrite string_length_app, substring_length.
  change (String.length "0xsim-log-") with 10%nat. lia.
Qed.

(** What one request does to the rows: nothing, or one row at the end,
    holding what the handler bound. *)
Lemma protect_rows body e d :
  trades (db_after (protect body e d)) = trades d \/
  exists i, Forall (fun r => id r < i) (trades d) /\
    trades (db_after (protect body e d)) =
      trades d ++ [mkRow i (destructure body "rawTransaction") (mockTxHash e)
                         "Submitted_Protected" (current_timestamp e)].
Proof.
  destruct (to_boolean (destructure body "rawTransaction")) eqn:Hraw.
  - pose proof (protect_truthy body e d Hraw) as H. simpl in H.
    destruct (run_insert _ _ _ _ _ _) as [[d' err] lastID] eqn:Hrun.
    rewrite H. simpl. destruct err as [msg|].
    + left. by rewrite (run_insert_err _ _ _ _ _ _ _ _ _ Hrun).
    + right. apply run_insert_ok in Hrun as (t & Ht & _ & -> & _ & Hd' & Hd).
      exists (next_id t). rewrite Hd', Hd. split; [apply next_id_fresh | done].
  - left. by rewrite protect_falsy.
Qed.

(** X12: the store is append-only: whatever requests are served, the rows
    already stored stay where and as they were, and each request adds
    at most one row. *)
Theorem store_is_append_only reqs d :
  exists added, trades (serve reqs d) = trades d ++ added /\
                (length added <= length reqs)%nat.
Proof.
  revert d. induction reqs as [|[b e] reqs IH]; intros d; simpl.
  - exists []. by rewrite app_nil_r.
  - destruct (IH (db_after (protect b e d))) as (added & Hadd & Hlen).
    destruct (protect_rows b e d) as [Hsame | (i & _ & Hone)].
    + exists added. rewrite Hadd, Hsame. split; [done | lia].
    + eexists. rewrite Hadd, Hone, <- app_assoc. split; [done|]. simpl. lia.
Qed.

Lemma serve_rows_shape reqs d :
  Forall (fun r => status r = "Submitted_Protected" /\
                   String.prefix "0xsim-log-" (protection_relay_tx_hash r) = true /\
                   (10 <= String.length (protection_relay_tx_hash r) <= 18)%nat)
         (trades d) ->
  Forall (fun r => status r = "Submitted_Protected" /\
                   String.prefix "0xsim-log-" (protection_relay_tx_hash r) = true /\
                   (10 <= String.length (protection_relay_tx_hash r) <= 18)%nat)
         (trades (serve reqs d)).
Proof.
  revert d. induction reqs as [|[b e] reqs IH]; intros d H; simpl; [done|].
  apply IH. destruct (protect_rows b e d) as [-> | (i & _ & ->)]; [done|].
  apply Forall_app; split; [done|]. constructor; [|constructor]. simpl.
  split; [done|]. split; [apply mockTxHash_prefix | apply mockTxHash_length].
Qed.

(** X13: every record a fresh store comes to hold is in the one state
    [Submitted_Protected] and carries a relay token of 10 to 18
    characters that starts with [0xsim-log-]. *)
Theorem store_records_have_one_status_and_a_token reqs :
  Forall (fun r => status r = "Submitted_Protected" /\
                   String.prefix "0xsim-log-" (protection_relay_tx_hash r) = true /\
                   (10 <= String.length (protection_relay_tx_hash r) <= 18)%nat)
         (trades (serve reqs (db fresh))).
Proof. apply serve_rows_shape. constructor. Qed.

Lemma max_id_le (rs : list Row) (b : Z) :
  0 <= b -> Forall (fun r => id r <= b) rs -> max_id rs <= b.
Proof.
  intros Hb H. induction H as [|r rs Hr _ IH]; simpl; lia.
Qed.

Lemma run_insert_table fault now raw hash st d d' i :
  run_insert fault now raw hash st d = (d', None, i) ->
  exists t, tables d !! TABLE = Some t /\
            tables d' !! TABLE =
              Some (mkTable (columns t) (rows t ++ [mkRow i raw hash st now]) i) /\
            i = next_id t.
Proof.
  unfold run_insert.
  destruct (is_open d); simpl; [|discriminate].
  destruct fault; [discriminate|].
  destruct (tables d !! TABLE) as [t|] eqn:Ht; [|discriminate].
  destruct (is_sql_null raw); [discriminate|].
  destruct (MAX_ROWID <=? _); [discriminate|].
  intros [= <- <-]. exists t. simpl. by rewrite lookup_insert_eq.
Qed.

Lemma counted_next_id t :
  seq t = Z.of_nat (length (rows t)) ->
  id <$> rows t = (fun i => Z.of_nat i + 1) <$> List.seq 0 (length (rows t)) ->
  next_id t = Z.of_nat (length (rows t)) + 1.
Proof.
  intros Hseq Hids. unfold next_id.
  assert (Hle : max_id (rows t) <= Z.of_nat (length (rows t))).
  { apply max_id_le; [lia|].
    assert (H : Forall (fun j => j <= Z.of_nat (length (rows t))) (id <$> rows t)).
    { rewrite Hids. apply Forall_fmap, Forall_forall. intros i Hi. simpl.
      apply list_elem_of_In, in_seq in Hi. lia. }
    rewrite Forall_fmap in H. exact H. }
  lia.
Qed.

Lemma protect_counted body e d : counted d -> counted (db_after (protect body e d)).
Proof.
  intros (t & Ht & Hseq & Hids).
  destruct (to_boolean (destructure body "rawTransaction")) eqn:Hraw.
  - pose proof (protect_truthy body e d Hraw) as H. simpl in H.
    destruct (run_insert _ _ _ _ _ _) as [[d' err] lastID] eqn:Hrun.
    rewrite H. simpl. destruct err as [msg|].
    + rewrite (run_insert_err _ _ _ _ _ _ _ _ _ Hrun). by exists t.
    + apply run_insert_table in Hrun as (t' & Ht' & Hnew & ->).
      rewrite Ht in Ht'. injection Ht' as <-.
      eexists. split; [exact Hnew|]. simpl.
      rewrite (counted_next_id t Hseq Hids), length_app. simpl. split; [lia|].
      rewrite fmap_app, Hids, Nat.add_1_r, seq_S, fmap_app. simpl. reflexivity.
  - rewrite protect_falsy by done. by exists t.
Qed.

Lemma serve_counted reqs d : counted d -> counted (serve reqs d).
Proof.
  revert d. induction reqs as [|[b e] reqs IH]; intros d H; simpl; [done|].
  by apply IH, protect_counted.
Qed.

(** X14: in a store started fresh the ids are 1, 2, 3, ... in insertion
    order, whatever mix of accepted, rejected and failed requests was
    served: a request that stores nothing uses up no id. *)
Theorem store_ids_count_from_one reqs :
  let rs := trades (serve reqs (db fresh)) in
  id <$> rs = (fun i => Z.of_nat i + 1) <$> List.seq 0 (length rs).
Proof.
  assert (H0 : counted (db fresh)).
  { eexists. split; [reflexivity|]. split; reflexivity. }
  destruct (serve_counted reqs _ H0) as (t & Ht & _ & Hids).
  simpl. unfold trades. by rewrite Ht.
Qed.

(** X15: start-up never touches the records: whatever fails while opening
    or initialising, and with or without [--init-db], the rows in the
    file are the rows afterwards. *)
Theorem startup_keeps_records (e : Startup.Env) :
  trades (db (main e)) = trades (mkDb true (file e)).
Proof.
  unfold main, open_db, initDb, run_create_table, trades.
  destruct (open_fault e), (init_db_flag e), (create_fault e); simpl; try done;
    destruct (file e !! TABLE) eqn:Ht; simpl; rewrite ?Ht; try done;
    by rewrite lookup_insert_eq.
Qed.

(** X16: with [--init-db] the process creates the table if the database
    opens and the statement succeeds, closes the database and exits
    without ever listening: no request is served. *)
Theorem init_db_mode_never_serves (e : Startup.Env) :
  init_db_flag e = true ->
  open_fault e = None ->
  let p := main e in
  listening p = false /\ exited p = true /\ is_open (db p) = false /\
  (forall body pe, post_protect p body pe = None) /\
  (create_fault e = None -> is_Some (tables (db p) !! TABLE)).
Proof.
  intros Hf Ho. unfold main, open_db, initDb, run_create_table, post_protect.
  rewrite Hf, Ho. simpl.
  destruct (create_fault e); simpl.
  - repeat split; done.
  - destruct (file e !! TABLE) eqn:Ht; simpl;
      repeat split; try done; intros _; rewrite ?Ht, ?lookup_insert_eq; done.
Qed.

Lemma init_db_mode_witness :
  init_db_flag (Startup.mkEnv true None None ∅) = true /\
  open_fault (Startup.mkEnv true None None ∅) = None /\
  listening (main (Startup.mkEnv true None None ∅)) = false /\
  is_Some (tables (db (main (Startup.mkEnv true None None ∅))) !! TABLE).
Proof.
  assert (Hf : init_db_flag (Startup.mkEnv true None None ∅) = true) by reflexivity.
  assert (Ho : open_fault (Startup.mkEnv true None None ∅) = None) by reflexivity.
  destruct (init_db_mode_never_serves _ Hf Ho) as (Hl & _ & _ & _ & Ht).
  split; [exact Hf|]. split; [exact Ho|]. split; [exact Hl|]. apply Ht. reflexivity.
Defined.

End StoreRuns.

(** ** The analyzer and the simulation route *)

Section AnalyzerRoutes.
Import Analyzer Routes.

(** The one request [geminiRiskAnalyzer] sends for a given input. *)
Lemma analyzer_single_call call tradeData :
  geminiRiskAnalyzer (Some (mkClient (Some (mkModels (Some call))))) tradeData =
  match (let! response :=
           call (mkRequest "gemini-2.5-flash"
                   (if startsWith tradeData "0xTx" then mock_prompt tradeData
                    else description_prompt tradeData)
                   "application/json") in
         parse_text response) with
  | Returned v => Returned v
  | Threw e => let! _ := get_prop e "message" in Returned API_ERROR
  end.
Proof. reflexivity. Qed.



(** X18: a failing call is absorbed: when the one request the analyzer sends
    is answered by a thrown error object, or by a reply whose text is
    not JSON, the result is the fixed "API Error" assessment, which
    carries nothing of the error or of the reply. *)
Theorem analyzer_absorbs_call_failures
    (call : Request -> Completion Response) (tradeData : string) :
  let req := mkRequest "gemini-2.5-flash"
               (if startsWith tradeData "0xTx" then mock_prompt tradeData
                else description_prompt tradeData)
               "application/json" in
  (exists e, call req = Threw e /\ has_properties e = true) \/
  (exists r, call req = Returned r /\ JSON_parse (default "undefined" (text r)) = None) ->
  geminiRiskAnalyzer (Some (mkClient (Some (mkModels (Some call))))) tradeData =
    Returned API_ERROR.
Proof.
  intros req H. rewrite analyzer_single_call. unfold req in H.
  destruct H as [(e & -> & He) | (r & -> & Hr)]; simpl.
  - by destruct e.
  - unfold parse_text. by rewrite Hr.
Qed.

Lemma analyzer_absorbs_witness :
  has_properties (mk_error "Error" "429 quota exceeded") = true /\
  geminiRiskAnalyzer
    (Some (mkClient (Some (mkModels (Some (fun _ => Threw (mk_error "Error" "429 quota exceeded")))))))
    Scenario.description = Returned API_ERROR.
Proof.
  assert (H : has_properties (mk_error "Error" "429 quota exceeded") = true) by reflexivity.
  split; [exact H|].
  apply (analyzer_absorbs_call_failures
           (fun _ => Threw (mk_error "Error" "429 quota exceeded")) Scenario.description).
  left. eexists. split; [reflexivity | exact H].
Defined.

(** X19: the catch block reads [e.message]: when the call throws [undefined]
    or [null], that read throws in turn and the analyzer itself
    rejects, as does [/api/simulate]. *)
Theorem analyzer_rejects_on_a_nullish_throw
    (call : Request -> Completion Response) (req_body : list (string * JsVal))
    (tradeData : string) (e : JsVal) :
  tradeDescription req_body = Some tradeData ->
  call (mkRequest "gemini-2.5-flash"
          (if startsWith tradeData "0xTx" then mock_prompt tradeData
           else description_prompt tradeData)
          "application/json") = Threw e ->
  has_properties e = false ->
  let ai := Some (mkClient (Some (mkModels (Some call)))) in
  is_returned (geminiRiskAnalyzer ai tradeData) = false /\
  exists err, simulate ai req_body = Some (Threw err).
Proof.
  intros Htd Hcall He ai. unfold ai, simulate. rewrite Htd.
  cbn [mbind option_bind]. rewrite analyzer_single_call, Hcall.
  destruct e; try discriminate; simpl; (split; [done|]); by eexists.
Qed.

Lemma analyzer_rejects_witness :
  tradeDescription [("stock", JStr "TATA"); ("action", JStr "Buy"); ("quantity", JNum 10)] =
    Some "Buy 10 shares of TATA on a major Indian exchange." /\
  is_returned (geminiRiskAnalyzer
                 (Some (mkClient (Some (mkModels (Some (fun _ => Threw JUndefined))))))
                 "Buy 10 shares of TATA on a major Indian exchange.") = false.
Proof.
  assert (Htd : tradeDescription
                  [("stock", JStr "TATA"); ("action", JStr "Buy"); ("quantity", JNum 10)] =
                Some "Buy 10 shares of TATA on a major Indian exchange.")
    by (vm_compute; reflexivity).
  split; [exact Htd|].
  exact (proj1 (analyzer_rejects_on_a_nullish_throw
                  (fun _ => Threw JUndefined) _ _ JUndefined Htd eq_refl eq_refl)).
Defined.

Lemma simulate_reply_string_score analysis s :
  get_prop analysis "riskScore" = Returned (JStr s) ->
  exists details attackType,
    get_prop analysis "rationale" = Returned details /\
    get_prop analysis "attackType" = Returned attackType /\
    simulate_reply analysis =
      Returned (JObj [("success", JBool true);
                      ("simulation",
                       JObj [("risk", JStr (split_head "/" s)); ("details", details);
                             ("attackType", attackType)])]).
Proof.
  intros Hs. unfold simulate_reply. rewrite Hs. simpl.
  destruct analysis; try discriminate; simpl in *;
    do 2 eexists; (split; [reflexivity|]); (split; reflexivity).
Qed.

(** X20: [/api/simulate] can answer exactly when the analysis has a string
    [riskScore]; the risk it reports is then the part of the score
    before the first slash, and [details] and [attackType] are the
    analysis' [rationale] and [attackType] ([undefined] when missing). *)
Theorem simulate_reply_needs_a_string_score (analysis : JsVal) :
  (is_returned (simulate_reply analysis) = true <->
   exists s, get_prop analysis "riskScore" = Returned (JStr s)) /\
  forall s, get_prop analysis "riskScore" = Returned (JStr s) ->
    exists details attackType,
      get_prop analysis "rationale" = Returned details /\
      get_prop analysis "attackType" = Returned attackType /\
      simulate_reply analysis =
        Returned (JObj [("success", JBool true);
                        ("simulation",
                         JObj [("risk", JStr (split_head "/" s)); ("details", details);
                               ("attackType", attackType)])]).
Proof.
  split; [|apply simulate_reply_string_score]. split.
  - unfold simulate_reply.
    destruct (get_prop analysis "riskScore") as [score|e] eqn:Hscore; simpl; [|done].
    destruct score; simpl; try done. intros _. by eexists.
  - intros [s Hs].
    destruct (simulate_reply_string_score analysis s Hs) as (d & a & _ & _ & ->). done.
Qed.

Lemma simulate_reply_witness :
  get_prop (assessment "72/100" "Front-Run" "Large swap.") "riskScore" = Returned (JStr "72/100") /\
  simulate_reply (assessment "72/100" "Front-Run" "Large swap.") =
    Returned (JObj [("success", JBool true);
                    ("simulation",
                     JObj [("risk", JStr "72"); ("details", JStr "Large swap.");
                           ("attackType", JStr "Front-Run")])]).
Proof.
  assert (H : get_prop (assessment "72/100" "Front-Run" "Large swap.") "riskScore" =
              Returned (JStr "72/100")) by reflexivity.
  split; [exact H|].
  destruct (proj2 (simulate_reply_needs_a_string_score
                     (assessment "72/100" "Front-Run" "Large swap.")) _ H)
    as (d & a & Hd & Ha & Hr).
  rewrite Hr. injection Hd as <-. injection Ha as <-. reflexivity.
Defined.

End AnalyzerRoutes.

(** ** The client against the routes *)

Section ClientRoutes.
Import Store Protect Analyzer Routes Client.

(** X21: the simulation request of the client carries a [tradeDescription]
    field, which the route does not read: whatever the user typed, the
    text analysed is the same sentence built from three missing fields,
    so the answer does not depend on the input. *)
Theorem simulate_ignores_what_the_client_sends
    (ai : option GoogleGenAI) (tradeInput : string) :
  tradeDescription (simulation_request tradeInput).2 =
    Some "undefined undefined shares of undefined on a major Indian exchange." /\
  simulate ai (simulation_request tradeInput).2 =
    Some (let! analysis :=
            geminiRiskAnalyzer ai
              "undefined undefined shares of undefined on a major Indian exchange." in
          simulate_reply analysis).
Proof. split; reflexivity. Qed.

Lemma simulate_reply_shape analysis reply :
  simulate_reply analysis = Returned reply ->
  exists risk details attackType,
    reply = JObj [("success", JBool true);
                  ("simulation",
                   JObj [("risk", risk); ("details", details); ("attackType", attackType)])].
Proof.
  unfold simulate_reply.
  destruct (get_prop analysis "riskScore") as [score|] eqn:Hscore; simpl; [|done].
  destruct (split_slash_head score) as [risk|]; simpl; [|done].
  destruct (get_prop analysis "rationale") as [details|]; simpl; [|done].
  destruct (get_prop analysis "attackType") as [attackType|]; simpl; [|done].
  intros [= <-]. by do 3 eexists.
Qed.

(** X22: the results panel reads [simulationResult.profitLoss.startsWith],
    and the route never sends a [profitLoss]: every reply the route can
    give is stored by [handleSimulation] and then makes the panel throw
    while rendering. *)
Theorem simulation_panel_throws_on_every_reply
    (analysis reply prev : JsVal) (tradeInput : string) :
  tradeInput <> EmptyString ->
  simulate_reply analysis = Returned reply ->
  let r := handleSimulation tradeInput (fun _ => Returned reply) prev in
  r.1 = [simulation_request tradeInput] /\
  get_prop reply "simulation" = Returned r.2 /\
  is_returned (render_simulation r.2) = false.
Proof.
  intros Hin Hreply.
  destruct (simulate_reply_shape analysis reply Hreply) as (risk & details & aty & ->).
  unfold handleSimulation. rewrite (nonempty_truthy tradeInput Hin). simpl.
  split; [done|]. split; done.
Qed.

Lemma simulation_panel_witness :
  "Swap 1 ETH for DAI" <> EmptyString /\
  simulate_reply (assessment "72/100" "Front-Run" "Large swap.") =
    Returned (JObj [("success", JBool true);
                    ("simulation",
                     JObj [("risk", JStr "72"); ("details", JStr "Large swap.");
                           ("attackType", JStr "Front-Run")])]) /\
  is_returned (render_simulation
    (handleSimulation "Swap 1 ETH for DAI"
       (fun _ => Returned
          (JObj [("success", JBool true);
                 ("simulation",
                  JObj [("risk", JStr "72"); ("details", JStr "Large swap.");
                        ("attackType", JStr "Front-Run")])]))
       JNull).2) = false.
Proof.
  assert (Hin : "Swap 1 ETH for DAI" <> EmptyString) by discriminate.
  assert (Hreply : simulate_reply (assessment "72/100" "Front-Run" "Large swap.") =
    Returned (JObj [("success", JBool true);
                    ("simulation",
                     JObj [("risk", JStr "72"); ("details", JStr "Large swap.");
                           ("attackType", JStr "Front-Run")])])) by reflexivity.
  split; [exact Hin|]. split; [exact Hreply|].
  exact (proj2 (proj2 (simulation_panel_throws_on_every_reply
                         _ _ JNull "Swap 1 ETH for DAI" Hin Hreply))).
Defined.

(** X23: the client and [/api/protect] together: with an empty input no
    request is sent; with a non-empty one, on a database that opened,
    the route never answers with the 400 of a missing [rawTransaction],
    and the client shows exactly one alert: the success line with the
    relay token, clearing the input, or the database error, keeping it. *)
Theorem client_submission_end_to_end (rawTx : string) (e : Protect.Env) (d : Db) :
  let fetch := fun req : Request =>
                 Returned (JObj (body (response (protect req.2 e d)))) in
  let o := protect (protect_request rawTx).2 e d in
  (rawTx = EmptyString ->
   handleSubmitProtectedTrade rawTx fetch = Some (mkSubmitResult [] [] rawTx)) /\
  (rawTx <> EmptyString -> is_open d = true ->
   response o <> bad_request /\
   ((exists i, response o = logged (mockTxHash e) i /\
      handleSubmitProtectedTrade rawTx fetch =
        Some (mkSubmitResult [protect_request rawTx]
                ["SUCCESS! " +:+ "Trade successfully logged to Private MEV-Protection Relay."
                 +:+ " Tx Hash: " +:+ mockTxHash e]
                EmptyString))
    \/ (response o = db_error /\
        handleSubmitProtectedTrade rawTx fetch =
          Some (mkSubmitResult [protect_request rawTx]
                  ["ERROR: Database error while logging trade."] rawTx)))).
Proof.
  simpl. split.
  - intros ->. reflexivity.
  - intros Hin _.
    destruct (submit_cases rawTx e d Hin) as [_ Hcase]. simpl in Hcase.
    unfold handleSubmitProtectedTrade, protect_request, submit in *.
    rewrite (nonempty_truthy rawTx Hin). cbn [negb snd].
    destruct Hcase as [(i & Hr & _) | (Hr & _)]; rewrite Hr.
    + split; [discriminate|]. left. exists i. split; [done|]. reflexivity.
    + split; [discriminate|]. right. split; [done|]. reflexivity.
Qed.

Lemma client_submission_witness :
  "0xdeadbeef" <> EmptyString /\
  is_open (Startup.db Startup.fresh) = true /\
  handleSubmitProtectedTrade "0xdeadbeef"
    (fun req => Returned (JObj (body (response
       (protect req.2 Scenario.request1 (Startup.db Startup.fresh)))))) =
  Some (mkSubmitResult [protect_request "0xdeadbeef"]
          ["SUCCESS! Trade successfully logged to Private MEV-Protection Relay. Tx Hash: 0xsim-log-8f3a91c2"]
          EmptyString).
Proof.
  assert (Hin : "0xdeadbeef" <> EmptyString) by discriminate.
  assert (Ho : is_open (Startup.db Startup.fresh) = true) by reflexivity.
  split; [exact Hin|]. split; [exact Ho|].
  destruct (proj2 (client_submission_end_to_end "0xdeadbeef" Scenario.request1
                     (Startup.db Startup.fresh)) Hin Ho)
    as [_ [(i & _ & Hok) | (Hbad & _)]].
  - rewrite Hok. reflexivity.
  - vm_compute in Hbad. discriminate.
Defined.

(** X24: [/api/wallet-health/:address] echoes the address and reports an
    exposure score that is an integer from 0 to 99; with the private
    mempool flag on, none of its alerts is a warning. *)
Theorem wallet_health_score_range (address : string) (r : Q) :
  Generator.unit_interval r ->
  let reply := wallet_health address r in
  get_prop reply "address" = Returned (JStr address) /\
  (exists k, 0 <= k <= 99 /\
             get_prop reply "mevExposureScore" = Returned (JNum (inject_Z k))) /\
  exists a1 a2, get_prop reply "alerts" = Returned (JArr [JStr a1; JStr a2]) /\
                startsWith a1 "Warning" = false /\ startsWith a2 "Warning" = false.
Proof.
  intros Hr. simpl. split; [done|]. split.
  - exists (Qfloor (r * 100)). split; [|done].
    pose proof (floor_of_scaled_unit r 100 ltac:(lia) Hr) as Hk.
    change (inject_Z 100) with 100%Q in Hk. lia.
  - do 2 eexists. split; [reflexivity|]. split; reflexivity.
Qed.

Lemma wallet_health_witness :
  Generator.unit_interval (999 # 1000) /\
  exists k, 0 <= k <= 99 /\
    get_prop (wallet_health "0xMockWalletAddress" (999 # 1000)) "mevExposureScore" =
      Returned (JNum (inject_Z k)).
Proof.
  assert (H : Generator.unit_interval (999 # 1000)) by (split; vm_compute; congruence).
  split; [exact H|].
  exact (proj1 (proj2 (wallet_health_score_range "0xMockWalletAddress" (999 # 1000) H))).
Defined.

End ClientRoutes.
